(** * safetensors_utils: header parser and multi-file tensor index aggregator

    A shallow embedding of [src/safetensors_utils.py]:

    - [read_safetensors_json], the length-prefixed JSON header reader;
    - the class [SafetensorsWrapper]: construction ([__init__],
      [_load_file]), the mapping-like queries ([get], [keys],
      [__contains__], [__getitem__], [__len__], [__repr__]) and
      [get_index].

    Python values are modelled as follows.  [bytes] is [list byte]; [str] is
    [string], holding the UTF-8 encoding of the text; [int] is [Z]; a [dict]
    is an insertion-ordered association list with unique keys; an exception
    is a value of [exn], and a call that may raise returns a [result].

    The modules the program imports are interfaces of the development:
    [struct.unpack], [open], [read] and [os.path.basename] (of [posixpath])
    are written out from their documentation; the byte order, word size and
    memory of the host and the UTF-8 and JSON decoders are fields of the
    class [Runtime]; the [safetensors] package is the class [Safetensors].
    General theorems hold for every instance; a reference instance is given
    for running the program on concrete files. *)

From Stdlib Require Import ZArith List String Ascii Bool Lia.
From Stdlib.Strings Require Import Byte.
From Stdlib Require Import Permutation DecimalString.
Import ListNotations.

Set Implicit Arguments.
Set Warnings "-register-all".

(** ** Exceptions and results *)

Inductive exn : Type :=
| OSError (file_path : string)        (* open() on a missing file *)
| StructError                         (* struct.error *)
| OverflowError
| MemoryError
| UnicodeDecodeError
| JSONDecodeError
| AttributeError
| KeyError (msg : string)
| IndexError
| TypeError
| ValueError (msg : string)
| SafetensorError (msg : string)      (* raised inside the safetensors package *)
| Unmodelled (what : string).         (* behaviour left out of the model *)

Inductive result (A : Type) : Type :=
| Ok (a : A)
| Raise (e : exn).

Arguments Ok {A} a.
Arguments Raise {A} e.

Definition bind {A B : Type} (r : result A) (k : A -> result B) : result B :=
  match r with
  | Ok a => k a
  | Raise e => Raise e
  end.

Declare Scope py_scope.
Delimit Scope py_scope with py.
Notation "x <- c ;; k" := (bind c (fun x => k))
  (at level 61, c at next level, right associativity) : py_scope.
Notation "' p <- c ;; k" := (bind c (fun x => let p := x in k))
  (at level 61, p pattern, c at next level, right associativity) : py_scope.

Fixpoint foldM {A X : Type} (f : A -> X -> result A) (xs : list X) (a : A)
  : result A :=
  match xs with
  | [] => Ok a
  | x :: xs' => bind (f a x) (foldM f xs')
  end.

(** A method that updates the object it is called on: it returns its result
    (or the exception it raised) and the object as the call left it. *)
Definition method (S A : Type) : Type := S -> result A * S.

Definition mret {S A : Type} (a : A) : method S A := fun self => (Ok a, self).

Definition mraise {S A : Type} (e : exn) : method S A :=
  fun self => (Raise e, self).

Definition mbind {S A B : Type} (m : method S A) (k : A -> method S B)
  : method S B :=
  fun self =>
    match m self with
    | (Ok a, self') => k a self'
    | (Raise e, self') => (Raise e, self')
    end.

Definition lift {S A : Type} (r : result A) : method S A :=
  fun self => (r, self).

Definition attr {S A : Type} (field : S -> A) : method S A :=
  fun self => (Ok (field self), self).

Definition assign {S : Type} (upd : S -> S) : method S unit :=
  fun self => (Ok tt, upd self).

Notation "x <-- c ;; k" := (mbind c (fun x => k))
  (at level 61, c at next level, right associativity) : py_scope.
Notation "c ;;; k" := (mbind c (fun _ => k))
  (at level 61, right associativity) : py_scope.

(** [for x in xs: body], stopped by the first exception. *)
Fixpoint for_each {S X : Type} (xs : list X) (body : X -> method S unit)
  : method S unit :=
  match xs with
  | [] => mret tt
  | x :: xs' => mbind (body x) (fun _ => for_each xs' body)
  end.

(** ** dict: insertion-ordered, keys unique *)

Definition dict (V : Type) : Type := list (string * V).

Module Dict.

Definition empty {V : Type} : dict V := [].

(** [d.get(k)] *)
Fixpoint get {V : Type} (d : dict V) (k : string) : option V :=
  match d with
  | [] => None
  | (k', v) :: d' => if String.eqb k k' then Some v else get d' k
  end.

(** [k in d] *)
Definition contains {V : Type} (d : dict V) (k : string) : bool :=
  match get d k with
  | Some _ => true
  | None => false
  end.

(** [d[k] = v]: an existing key keeps its position, a new key goes last. *)
Fixpoint set {V : Type} (d : dict V) (k : string) (v : V) : dict V :=
  match d with
  | [] => [(k, v)]
  | (k', v') :: d' =>
      if String.eqb k k' then (k', v) :: d' else (k', v') :: set d' k v
  end.

(** [d.keys()] and [d.items()], as lists *)
Definition keys {V : Type} (d : dict V) : list string := map fst d.
Definition items {V : Type} (d : dict V) : list (string * V) := d.

(** [len(d)] *)
Definition len {V : Type} (d : dict V) : nat := List.length d.

(** [dict(pairs)] *)
Definition of_pairs {V : Type} (pairs : list (string * V)) : dict V :=
  fold_left (fun d kv => set d (fst kv) (snd kv)) pairs empty.

End Dict.

(** ** The values [json.loads] produces *)

Inductive json : Type :=
| JNull
| JBool (b : bool)
| JInt (n : Z)
| JFloat (literal : string)           (* a float, kept as its source text *)
| JStr (s : string)
| JList (l : list json)
| JDict (d : dict json).

(** The code points of a [str]: a lead byte with its continuation bytes. *)
Definition is_continuation (c : ascii) : bool :=
  let n := N_of_ascii c in (128 <=? n)%N && (n <? 192)%N.

Fixpoint code_points_aux (cur : string) (s : string) : list string :=
  match s with
  | EmptyString => match cur with EmptyString => [] | _ => [cur] end
  | String c s' =>
      if is_continuation c
      then code_points_aux (cur ++ String c EmptyString)%string s'
      else match cur with
           | EmptyString => code_points_aux (String c EmptyString) s'
           | _ => cur :: code_points_aux (String c EmptyString) s'
           end
  end.

Definition code_points (s : string) : list string :=
  code_points_aux EmptyString s.

(** [v[key]] for a [str] key *)
Definition getitem_str (v : json) (key : string) : result json :=
  match v with
  | JDict d =>
      match Dict.get d key with
      | Some x => Ok x
      | None => Raise (KeyError key)
      end
  | _ => Raise TypeError
  end.

(** [v[i]] for a non-negative [int] index *)
Definition getitem_int (v : json) (i : nat) : result json :=
  match v with
  | JList l =>
      match nth_error l i with
      | Some x => Ok x
      | None => Raise IndexError
      end
  | JStr s =>
      match nth_error (code_points s) i with
      | Some c => Ok (JStr c)
      | None => Raise IndexError
      end
  | JDict _ => Raise (KeyError (NilEmpty.string_of_uint (Nat.to_uint i)))
  | _ => Raise TypeError
  end.

(** The [int] a value stands for in arithmetic ([bool] is a subclass of
    [int]). *)
Definition as_int (v : json) : option Z :=
  match v with
  | JInt n => Some n
  | JBool b => Some (if b then 1 else 0)%Z
  | _ => None
  end.

Definition is_number (v : json) : bool :=
  match v with
  | JInt _ | JBool _ | JFloat _ => true
  | _ => false
  end.

(** [a - b] and [a + b].  Arithmetic on floats is not modelled. *)
Definition arith (op : Z -> Z -> Z) (a b : json) : result json :=
  match as_int a, as_int b with
  | Some x, Some y => Ok (JInt (op x y))
  | _, _ =>
      if is_number a && is_number b
      then Raise (Unmodelled "float arithmetic")
      else Raise TypeError
  end.

Definition py_sub : json -> json -> result json := arith Z.sub.
Definition py_add : json -> json -> result json := arith Z.add.

(** [str(n)] for a non-negative [int] *)
Definition str_of_nat (n : nat) : string :=
  NilEmpty.string_of_uint (Nat.to_uint n).

(** ** struct.unpack('Q', buffer)[0]

    The format ['Q'] carries no byte-order prefix, so [struct] uses the
    native byte order (and native size, 8 bytes for [unsigned long long]).
    The buffer must hold exactly 8 bytes. *)

Inductive endianness : Type := LittleEndian | BigEndian.

Definition Z_of_byte (b : byte) : Z := Z.of_N (Byte.to_N b).

Fixpoint le_to_Z (bs : list byte) : Z :=
  match bs with
  | [] => 0
  | b :: bs' => Z_of_byte b + 256 * le_to_Z bs'
  end.

Definition be_to_Z (bs : list byte) : Z := le_to_Z (rev bs).

Definition unpack_Q (order : endianness) (buffer : list byte) : result Z :=
  if Nat.eqb (List.length buffer) 8
  then Ok (match order with
           | LittleEndian => le_to_Z buffer
           | BigEndian => be_to_Z buffer
           end)
  else Raise StructError.

(** ** Files

    A file system maps a path to the bytes of the file, when there is one.
    An open binary file is the list of bytes after its read cursor. *)

Definition filesystem : Type := string -> option (list byte).

Definition open_rb (fs : filesystem) (file_path : string) : result (list byte) :=
  match fs file_path with
  | Some content => Ok content
  | None => Raise (OSError file_path)
  end.

Inductive wordsize : Type := W32 | W64.

(** [sys.maxsize] *)
Definition maxsize (w : wordsize) : Z :=
  match w with
  | W32 => 2 ^ 31 - 1
  | W64 => 2 ^ 63 - 1
  end.

(** [f.read(n)] for [n >= 0]: the next [n] bytes, or all that is left
    when fewer remain; the result and the file after the read.  A size
    beyond [sys.maxsize] raises [OverflowError].  The buffer for the result
    is allocated for [n] bytes before the file is read: a size beyond
    [limit], the largest buffer the interpreter can get, raises
    [MemoryError]. *)
Definition f_read (w : wordsize) (limit : Z) (n : Z) (f : list byte)
  : result (list byte * list byte) :=
  if (maxsize w <? n)%Z then Raise OverflowError
  else if (limit <? n)%Z then Raise MemoryError
  else if (Z.of_nat (List.length f) <=? n)%Z then Ok (f, [])
  else Ok (firstn (Z.to_nat n) f, skipn (Z.to_nat n) f).

(** ** os.path.basename (posixpath): what follows the last ['/'] *)

Fixpoint basename_aux (cur : string) (p : string) : string :=
  match p with
  | EmptyString => cur
  | String c p' =>
      if Ascii.eqb c "/"%char then basename_aux EmptyString p'
      else basename_aux (cur ++ String c EmptyString)%string p'
  end.

Definition basename (p : string) : string := basename_aux EmptyString p.

(** ** The interpreter and library the program runs on *)

Class Runtime : Type := {
  byteorder : endianness;                          (* sys.byteorder *)
  word : wordsize;
  alloc_limit : Z;                                 (* largest buffer, in bytes *)
  alloc_limit_ge_8 : (8 <=? alloc_limit)%Z = true;
  decode_utf8 : list byte -> result string;        (* bytes.decode('utf-8') *)
  json_loads : string -> result json               (* json.loads *)
}.

(** The [safetensors] package: [safe_open] gives a handle on one file;
    [keys] lists its tensor names. *)
Class Safetensors : Type := {
  Handle : Type;
  Tensor : Type;
  Slice : Type;
  Options : Type;                                  (* the extra [**kv] *)
  safe_open : string -> string -> Options -> result Handle;
  handle_keys : Handle -> list string;
  get_tensor : Handle -> string -> result Tensor;
  get_slice : Handle -> string -> result Slice
}.

Section Program.

Context {rt : Runtime} {st : Safetensors}.

Local Open Scope py_scope.
Local Open Scope string_scope.

(** *** read_safetensors_json *)

(** Step 1: the first 8 bytes give the size of the header. *)
Definition read_header_size (f : list byte) : result (Z * list byte) :=
  '(header_size_bytes, f) <- f_read word alloc_limit 8 f ;;
  header_size <- unpack_Q byteorder header_size_bytes ;;
  Ok (header_size, f).

(** Step 2: the next [header_size] bytes. *)
Definition read_header_bytes (f : list byte) : result (list byte) :=
  '(header_size, f) <- read_header_size f ;;
  '(header_bytes, _) <- f_read word alloc_limit header_size f ;;
  Ok header_bytes.

Definition read_safetensors_json (fs : filesystem) (file_path : string)
  : result json :=
  f <- open_rb fs file_path ;;
  header_bytes <- read_header_bytes f ;;
  header_str <- decode_utf8 header_bytes ;;
  (* Step 3: parse the JSON header *)
  json_loads header_str.

(** *** SafetensorsWrapper *)

Record SafetensorsWrapper : Type := {
  _file_paths : list string;
  _tensors : dict Handle      (* tensor references from multiple files *)
}.

(** The [file_paths] argument: a [str] or a list of [str]. *)
Inductive file_paths_arg : Type :=
| OnePath (file_path : string)
| PathList (file_paths : list string).

Definition set_tensors (self : SafetensorsWrapper) (t : dict Handle)
  : SafetensorsWrapper :=
  {| _file_paths := _file_paths self; _tensors := t |}.

Definition set_file_paths (self : SafetensorsWrapper) (ps : list string)
  : SafetensorsWrapper :=
  {| _file_paths := ps; _tensors := _tensors self |}.

Definition collision_message (key : string) : string :=
  "Tensor name collision detected: '" ++ key
    ++ "' is already loaded from another file.".

Definition not_found_message (key : string) : string :=
  "Tensor '" ++ key ++ "' not found in any wrapped files.".

(** The body of the loop of [_load_file]. *)
Definition merge_key (file : Handle) (key : string)
  : method SafetensorsWrapper unit :=
  tensors <-- attr _tensors ;;
  if Dict.contains tensors key
  then mraise (ValueError (collision_message key))
  else assign (fun self => set_tensors self (Dict.set (_tensors self) key file)).

(** Load a safetensors file and merge its tensors. *)
Definition _load_file (file_path framework : string) (kv : Options)
  : method SafetensorsWrapper unit :=
  file <-- lift (safe_open file_path framework kv) ;;
  for_each (handle_keys file) (merge_key file) ;;;
  assign (fun self => set_file_paths self (_file_paths self ++ [file_path])).

Definition __init__ (file_paths : file_paths_arg) (framework : string)
  (kv : Options) : method SafetensorsWrapper unit :=
  (* a single file becomes a list *)
  let file_paths :=
    match file_paths with
    | OnePath file_path => [file_path]
    | PathList file_paths => file_paths
    end in
  assign (fun self => set_file_paths self []) ;;;
  assign (fun self => set_tensors self Dict.empty) ;;;
  for_each file_paths (fun file_path => _load_file file_path framework kv).

(** The object [__init__] receives: no attribute is set yet. *)
Definition blank : SafetensorsWrapper :=
  {| _file_paths := []; _tensors := Dict.empty |}.

(** The call [SafetensorsWrapper(file_paths, framework, **kv)]: the caller
    gets the object when [__init__] returns, and only the exception when it
    raises. *)
Definition new (file_paths : file_paths_arg) (framework : string)
  (kv : Options) : result SafetensorsWrapper :=
  match __init__ file_paths framework kv blank with
  | (Ok _, self) => Ok self
  | (Raise e, _) => Raise e
  end.

Definition __getitem__ (self : SafetensorsWrapper) (key : string)
  : result Tensor :=
  if Dict.contains (_tensors self) key
  then match Dict.get (_tensors self) key with
       | Some file => get_tensor file key
       | None => Raise (KeyError key)
       end
  else Raise (KeyError (not_found_message key)).

(** [get] returns the tensor or the caller's default. *)
Definition get {D : Type} (self : SafetensorsWrapper) (key : string)
  (default : D) : result (Tensor + D) :=
  match __getitem__ self key with
  | Ok tensor => Ok (inl tensor)
  | Raise (KeyError _) => Ok (inr default)
  | Raise e => Raise e
  end.

Definition keys (self : SafetensorsWrapper) : list string :=
  Dict.keys (_tensors self).

Definition __contains__ (self : SafetensorsWrapper) (key : string) : bool :=
  Dict.contains (_tensors self) key.

Definition __len__ (self : SafetensorsWrapper) : nat :=
  Dict.len (_tensors self).

Definition __repr__ (self : SafetensorsWrapper) : string :=
  "<SafetensorsWrapper: " ++ str_of_nat (__len__ self) ++ " tensors from "
    ++ str_of_nat (Dict.len (_tensors self)) ++ " files>".

(** *** get_index *)

Record index : Type := {
  total_size : json;          (* index["metadata"]["total_size"] *)
  weight_map : dict string    (* index["weight_map"] *)
}.

(** [metadata.items()] *)
Definition items_of (metadata : json) : result (list (string * json)) :=
  match metadata with
  | JDict d => Ok (Dict.items d)
  | _ => Raise AttributeError
  end.

(** One turn of the inner loop. *)
Definition index_entry (file_name : string) (acc : dict string * json)
  (item : string * json) : result (dict string * json) :=
  let '(weight_map, total_size) := acc in
  let '(tensor_name, tensor_info) := item in
  if tensor_name =? "__metadata__" then Ok (weight_map, total_size)
  else
    let weight_map := Dict.set weight_map tensor_name file_name in
    offsets <- getitem_str tensor_info "data_offsets" ;;
    stop <- getitem_int offsets 1 ;;
    offsets <- getitem_str tensor_info "data_offsets" ;;
    start <- getitem_int offsets 0 ;;
    span <- py_sub stop start ;;
    total_size <- py_add total_size span ;;
    Ok (weight_map, total_size).

(** One turn of the outer loop. *)
Definition index_file (fs : filesystem) (acc : dict string * json)
  (file_path : string) : result (dict string * json) :=
  metadata <- read_safetensors_json fs file_path ;;
  let file_name := basename file_path in
  items <- items_of metadata ;;
  foldM (index_entry file_name) items acc.

Definition get_index (self : SafetensorsWrapper) (fs : filesystem)
  : result index :=
  '(weight_map, total_size) <-
    foldM (index_file fs) (_file_paths self) (Dict.empty, JInt 0) ;;
  Ok {| total_size := total_size; weight_map := weight_map |}.

End Program.

(** ** Vocabulary of the specification *)

Definition is_tensor_entry {V : Type} (item : string * V) : bool :=
  negb (fst item =? "__metadata__")%string.

(** The entries of a header other than [__metadata__], and their names. *)
Definition tensor_entries (header : dict json) : list (string * json) :=
  filter is_tensor_entry header.

Definition tensor_names (header : dict json) : list string :=
  map fst (tensor_entries header).

(** [data_offsets[1] - data_offsets[0]] of an entry whose [data_offsets]
    starts with two integers. *)
Definition span_of (tensor_info : json) : option Z :=
  match tensor_info with
  | JDict d =>
      match Dict.get d "data_offsets" with
      | Some (JList (JInt start :: JInt stop :: _)) => Some (stop - start)%Z
      | _ => None
      end
  | _ => None
  end.

Definition has_offsets (item : string * json) : Prop :=
  span_of (snd item) <> None.

Definition span_or_zero (item : string * json) : Z :=
  match span_of (snd item) with
  | Some n => n
  | None => 0%Z
  end.

Definition sum_Z (l : list Z) : Z := fold_right Z.add 0%Z l.

(** The sum of the spans of all tensor entries of the given headers. *)
Definition spec_total_size (headers : list (dict json)) : Z :=
  sum_Z (map span_or_zero (flat_map tensor_entries headers)).

(** The registry entries one file contributes, and the registry a list of
    files builds when no name repeats. *)
Definition entries_of {st : Safetensors} (file : Handle) : dict Handle :=
  map (fun key => (key, file)) (handle_keys file).

Definition registry_of {st : Safetensors} (files : list Handle) : dict Handle :=
  flat_map entries_of files.

Definition all_keys {st : Safetensors} (files : list Handle) : list string :=
  flat_map handle_keys files.

(** The paths a constructor argument stands for. *)
Definition paths_of (arg : file_paths_arg) : list string :=
  match arg with
  | OnePath file_path => [file_path]
  | PathList file_paths => file_paths
  end.

(** A path component holds no ['/']. *)
Fixpoint is_component (s : string) : bool :=
  match s with
  | EmptyString => true
  | String c s' => negb (Ascii.eqb c "/"%char) && is_component s'
  end.

(** [weight_map[name] = file_name] for each of the names, in order. *)
Definition assign_all (weight_map : dict string) (names : list string)
  (file_name : string) : dict string :=
  fold_left (fun wm name => Dict.set wm name file_name) names weight_map.

(** [parsed fs ps headers]: on [fs], every path of [ps] holds a header that
    is a JSON object, giving [headers] in order. *)
Definition parsed {rt : Runtime} (fs : filesystem) (ps : list string)
  (headers : list (dict json)) : Prop :=
  Forall2 (fun p header => read_safetensors_json fs p = Ok (JDict header))
    ps headers.

(** Every tensor entry of the header has integer [data_offsets]. *)
Definition well_formed (header : dict json) : Prop :=
  Forall has_offsets (tensor_entries header).

(** The loop of [__init__]. *)
Definition load_all {st : Safetensors} (framework : string) (kv : Options)
  (ps : list string) : method SafetensorsWrapper unit :=
  for_each ps (fun file_path => _load_file file_path framework kv).

(** [opened ps files]: every path of [ps] opens, giving [files] in order. *)
Definition opened {st : Safetensors} (framework : string) (kv : Options)
  (ps : list string) (files : list Handle) : Prop :=
  Forall2 (fun p file => safe_open p framework kv = Ok file) ps files.

(** The tensor names in the header a file has on disk (none when the file
    does not hold a JSON object). *)
Definition names_on_disk {rt : Runtime} (fs : filesystem) (file_path : string)
  : list string :=
  match read_safetensors_json fs file_path with
  | Ok (JDict header) => tensor_names header
  | _ => []
  end.

(** ** A reference runtime

    A decoder for UTF-8 (well-formed sequences of the Unicode standard) and a
    parser for JSON text as [json.loads] accepts it: objects, arrays,
    strings with the one-letter escapes, numbers, [true], [false], [null]
    and the constants [NaN], [Infinity], [-Infinity].  The [\u] escape and
    the limits of the interpreter (recursion depth, digits of an integer)
    are left out.  The theorems on the program do not depend on this
    instance; it is used to run the program on concrete files. *)

Module Reference.

Local Open Scope py_scope.

Definition between (lo hi : N) (b : byte) : bool :=
  ((lo <=? Byte.to_N b) && (Byte.to_N b <=? hi))%N.

Definition continuation (b : byte) : bool := between 128 191 b.

(** A three-byte sequence: no overlong form, no surrogate. *)
Definition three_bytes (b0 b1 b2 : byte) : bool :=
  ((between 224 224 b0 && between 160 191 b1)
   || (between 225 236 b0 && continuation b1)
   || (between 237 237 b0 && between 128 159 b1)
   || (between 238 239 b0 && continuation b1))
  && continuation b2.

(** A four-byte sequence: no overlong form, at most U+10FFFF. *)
Definition four_bytes (b0 b1 b2 b3 : byte) : bool :=
  ((between 240 240 b0 && between 144 191 b1)
   || (between 241 243 b0 && continuation b1)
   || (between 244 244 b0 && between 128 143 b1))
  && continuation b2 && continuation b3.

Fixpoint utf8_valid (bs : list byte) : bool :=
  match bs with
  | [] => true
  | b0 :: r0 =>
      if between 0 127 b0 then utf8_valid r0
      else
        match r0 with
        | [] => false
        | b1 :: r1 =>
            if between 194 223 b0 then continuation b1 && utf8_valid r1
            else
              match r1 with
              | [] => false
              | b2 :: r2 =>
                  if between 224 239 b0
                  then three_bytes b0 b1 b2 && utf8_valid r2
                  else
                    match r2 with
                    | [] => false
                    | b3 :: r3 => four_bytes b0 b1 b2 b3 && utf8_valid r3
                    end
              end
        end
  end.

Definition decode (bs : list byte) : result string :=
  if utf8_valid bs then Ok (string_of_list_byte bs)
  else Raise UnicodeDecodeError.

(** *** JSON text *)

Definition dquote : ascii := ascii_of_nat 34.

Definition is_ws (c : ascii) : bool :=
  Ascii.eqb c " " || Ascii.eqb c (ascii_of_nat 9)
  || Ascii.eqb c (ascii_of_nat 10) || Ascii.eqb c (ascii_of_nat 13).

Definition is_digit (c : ascii) : bool :=
  ((48 <=? N_of_ascii c) && (N_of_ascii c <=? 57))%N.

Fixpoint skip_ws (s : string) : string :=
  match s with
  | String c s' => if is_ws c then skip_ws s' else s
  | EmptyString => s
  end.

Fixpoint strip_prefix (p s : string) : option string :=
  match p, s with
  | EmptyString, _ => Some s
  | String a p', String b s' =>
      if Ascii.eqb a b then strip_prefix p' s' else None
  | String _ _, EmptyString => None
  end.

Definition unescape (e : ascii) : option ascii :=
  if Ascii.eqb e dquote then Some dquote
  else if Ascii.eqb e "\" then Some "\"%char
  else if Ascii.eqb e "/" then Some "/"%char
  else if Ascii.eqb e "b" then Some (ascii_of_nat 8)
  else if Ascii.eqb e "f" then Some (ascii_of_nat 12)
  else if Ascii.eqb e "n" then Some (ascii_of_nat 10)
  else if Ascii.eqb e "r" then Some (ascii_of_nat 13)
  else if Ascii.eqb e "t" then Some (ascii_of_nat 9)
  else None.

(** The text of a string literal, after its opening quote. *)
Fixpoint scan_string (fuel : nat) (s : string) : result (string * string) :=
  match fuel with
  | O => Raise (Unmodelled "fuel")
  | S fuel' =>
      match s with
      | EmptyString => Raise JSONDecodeError
      | String c s' =>
          if Ascii.eqb c dquote then Ok (EmptyString, s')
          else if Ascii.eqb c "\" then
            match s' with
            | EmptyString => Raise JSONDecodeError
            | String e s'' =>
                match unescape e with
                | Some ch =>
                    '(text, rest) <- scan_string fuel' s'' ;;
                    Ok (String ch text, rest)
                | None =>
                    if Ascii.eqb e "u" then Raise (Unmodelled "\u escape")
                    else Raise JSONDecodeError
                end
            end
          else if (N_of_ascii c <? 32)%N then Raise JSONDecodeError
          else
            '(text, rest) <- scan_string fuel' s' ;;
            Ok (String c text, rest)
      end
  end.

Fixpoint scan_digits (s : string) : string * string :=
  match s with
  | String c s' =>
      if is_digit c
      then let '(ds, rest) := scan_digits s' in (String c ds, rest)
      else (EmptyString, s)
  | EmptyString => (EmptyString, s)
  end.

Fixpoint Z_of_digits (acc : Z) (ds : string) : Z :=
  match ds with
  | EmptyString => acc
  | String c ds' => Z_of_digits (10 * acc + (Z.of_N (N_of_ascii c) - 48)) ds'
  end.

(** The integer part: [0] or a digit string without a leading zero. *)
Definition scan_int_part (s : string) : option (string * string) :=
  match s with
  | String c s' =>
      if Ascii.eqb c "0" then Some ("0"%string, s')
      else if is_digit c then Some (scan_digits s)
      else None
  | EmptyString => None
  end.

(** The optional fraction [.digits]. *)
Definition scan_frac (s : string) : string * string :=
  match s with
  | String c s' =>
      if Ascii.eqb c "." then
        match scan_digits s' with
        | (EmptyString, _) => (EmptyString, s)
        | (ds, rest) => (String c ds, rest)
        end
      else (EmptyString, s)
  | EmptyString => (EmptyString, s)
  end.

(** The optional exponent [e|E, sign, digits]. *)
Definition scan_exp (s : string) : string * string :=
  match s with
  | String c s' =>
      if Ascii.eqb c "e" || Ascii.eqb c "E" then
        let '(sign, s'') :=
          match s' with
          | String g t =>
              if Ascii.eqb g "+" || Ascii.eqb g "-"
              then (String g EmptyString, t) else (EmptyString, s')
          | EmptyString => (EmptyString, s')
          end in
        match scan_digits s'' with
        | (EmptyString, _) => (EmptyString, s)
        | (ds, rest) => (String c (sign ++ ds), rest)
        end
      else (EmptyString, s)
  | EmptyString => (EmptyString, s)
  end.

Definition scan_number (s : string) : result (json * string) :=
  let '(minus, s1) :=
    match s with
    | String c s' => if Ascii.eqb c "-" then (true, s') else (false, s)
    | EmptyString => (false, s)
    end in
  match scan_int_part s1 with
  | None => Raise JSONDecodeError
  | Some (ds, s2) =>
      let '(frac, s3) := scan_frac s2 in
      let '(exp, s4) := scan_exp s3 in
      match frac, exp with
      | EmptyString, EmptyString =>
          let n := Z_of_digits 0 ds in
          Ok (JInt (if minus then - n else n), s4)
      | _, _ =>
          Ok (JFloat ((if minus then "-" else "") ++ ds ++ frac ++ exp), s4)
      end
  end.

Definition scan_constant (s : string) : result (json * string) :=
  match strip_prefix "null" s with Some r => Ok (JNull, r) | None =>
  match strip_prefix "true" s with Some r => Ok (JBool true, r) | None =>
  match strip_prefix "false" s with Some r => Ok (JBool false, r) | None =>
  match strip_prefix "NaN" s with Some r => Ok (JFloat "NaN", r) | None =>
  match strip_prefix "Infinity" s with Some r => Ok (JFloat "Infinity", r) | None =>
  match strip_prefix "-Infinity" s with Some r => Ok (JFloat "-Infinity", r) | None =>
  scan_number s
  end end end end end end.

Fixpoint parse_value (fuel : nat) (s : string) {struct fuel}
  : result (json * string) :=
  match fuel with
  | O => Raise (Unmodelled "fuel")
  | S fuel' =>
      match s with
      | EmptyString => Raise JSONDecodeError
      | String c s' =>
          if Ascii.eqb c dquote then
            '(text, rest) <- scan_string fuel' s' ;;
            Ok (JStr text, rest)
          else if Ascii.eqb c "{" then
            match skip_ws s' with
            | String d r =>
                if Ascii.eqb d "}" then Ok (JDict Dict.empty, r)
                else parse_members fuel' (skip_ws s') []
            | EmptyString => Raise JSONDecodeError
            end
          else if Ascii.eqb c "[" then
            match skip_ws s' with
            | String d r =>
                if Ascii.eqb d "]" then Ok (JList [], r)
                else parse_elements fuel' (skip_ws s') []
            | EmptyString => Raise JSONDecodeError
            end
          else scan_constant s
      end
  end

(** The members of an object, from the quote that opens a key. *)
with parse_members (fuel : nat) (s : string) (pairs : list (string * json))
  {struct fuel} : result (json * string) :=
  match fuel with
  | O => Raise (Unmodelled "fuel")
  | S fuel' =>
      match s with
      | String q s0 =>
          if Ascii.eqb q dquote then
            '(key, s1) <- scan_string fuel' s0 ;;
            match skip_ws s1 with
            | String colon s2 =>
                if Ascii.eqb colon ":" then
                  '(value, s3) <- parse_value fuel' (skip_ws s2) ;;
                  let pairs := pairs ++ [(key, value)] in
                  match skip_ws s3 with
                  | String d s4 =>
                      if Ascii.eqb d "}"
                      then Ok (JDict (Dict.of_pairs pairs), s4)
                      else if Ascii.eqb d ","
                      then parse_members fuel' (skip_ws s4) pairs
                      else Raise JSONDecodeError
                  | EmptyString => Raise JSONDecodeError
                  end
                else Raise JSONDecodeError
            | EmptyString => Raise JSONDecodeError
            end
          else Raise JSONDecodeError
      | EmptyString => Raise JSONDecodeError
      end
  end

(** The elements of an array, from the start of a value. *)
with parse_elements (fuel : nat) (s : string) (values : list json)
  {struct fuel} : result (json * string) :=
  match fuel with
  | O => Raise (Unmodelled "fuel")
  | S fuel' =>
      '(value, s1) <- parse_value fuel' s ;;
      let values := values ++ [value] in
      match skip_ws s1 with
      | String d s2 =>
          if Ascii.eqb d "]" then Ok (JList values, s2)
          else if Ascii.eqb d ","
          then parse_elements fuel' (skip_ws s2) values
          else Raise JSONDecodeError
      | EmptyString => Raise JSONDecodeError
      end
  end.

Definition loads (s : string) : result json :=
  '(value, rest) <- parse_value (2 * String.length s + 2) (skip_ws s) ;;
  match skip_ws rest with
  | EmptyString => Ok value
  | String _ _ => Raise JSONDecodeError
  end.

(** A host with 4 GiB for a buffer. *)
Definition runtime (order : endianness) (w : wordsize) : Runtime :=
  {| byteorder := order; word := w;
     alloc_limit := 2 ^ 32; alloc_limit_ge_8 := eq_refl;
     decode_utf8 := decode; json_loads := loads |}.

End Reference.

(** ** A reference safetensors package

    [safe_open] reads the header of the file and keeps the tensor names, in
    header order; a tensor is stood for by the file and name it comes
    from. *)

Module ReferencePackage.

Local Open Scope py_scope.

Record handle : Type := {
  handle_path : string;
  handle_names : list string
}.

Definition open {rt : Runtime} (fs : filesystem)
  (file_path framework : string) (kv : unit) : result handle :=
  header <- read_safetensors_json fs file_path ;;
  match header with
  | JDict d =>
      Ok {| handle_path := file_path; handle_names := tensor_names d |}
  | _ => Raise (SafetensorError "invalid header")
  end.

Definition fetch (file : handle) (name : string) : result (string * string) :=
  if existsb (String.eqb name) (handle_names file)
  then Ok (handle_path file, name)
  else Raise (SafetensorError "no such tensor").

Definition package {rt : Runtime} (fs : filesystem) : Safetensors :=
  {| Handle := handle;
     Tensor := string * string;
     Slice := string * string;
     Options := unit;
     safe_open := open fs;
     handle_keys := handle_names;
     get_tensor := fetch;
     get_slice := fetch |}.

End ReferencePackage.

(** ** Example files *)

Module Files.

Definition byte_of_Z (n : Z) : byte :=
  match Byte.of_N (Z.to_N (n mod 256)) with
  | Some b => b
  | None => x00
  end.

(** The [k] low bytes of [n], least significant first. *)
Fixpoint le_bytes (k : nat) (n : Z) : list byte :=
  match k with
  | O => []
  | S k' => byte_of_Z n :: le_bytes k' (n / 256)
  end.

(** JSON text written with apostrophes in place of double quotes. *)
Fixpoint quoted (s : string) : string :=
  match s with
  | EmptyString => EmptyString
  | String c s' =>
      String (if Ascii.eqb c "'" then ascii_of_nat 34 else c) (quoted s')
  end.

(** A file: the header length on 8 bytes, little-endian, the header text,
    the tensor data. *)
Definition container (header : string) (data : list byte) : list byte :=
  le_bytes 8 (Z.of_nat (String.length (quoted header)))
    ++ list_byte_of_string (quoted header) ++ data.

(** A prefix announcing [declared] bytes of header before [body]. *)
Definition with_prefix (declared : Z) (body : string) : list byte :=
  le_bytes 8 declared ++ list_byte_of_string (quoted body).

Definition header_a : string :=
  "{'a':{'dtype':'F32','shape':[2],'data_offsets':[0,8]}}".

Definition header_w1 : string :=
  "{'__metadata__':{'format':'pt'},'w1':{'dtype':'F32','shape':[1],'data_offsets':[0,4]}}".

Definition header_w2 : string :=
  "{'w2':{'dtype':'F32','shape':[1],'data_offsets':[0,4]},'b2':{'dtype':'U8','shape':[2],'data_offsets':[4,6]}}".

Definition header_w : string :=
  "{'w':{'dtype':'U8','shape':[1],'data_offsets':[0,1]}}".

Definition zeros (n : nat) : list byte := repeat x00 n.

Definition disk (entries : list (string * list byte)) : filesystem :=
  fun file_path => Dict.get entries file_path.

Definition fs0 : filesystem :=
  disk [ ("model/a.safetensors", container header_a (zeros 8));
         ("model/file1.safetensors", container header_w1 (zeros 4));
         ("model/file2.safetensors", container header_w2 (zeros 6));
         ("other/w.safetensors", container header_w (zeros 1));
         ("other/w_again.safetensors", container header_w (zeros 1));
         ("empty.safetensors", container "{}" []);
         ("short.safetensors", with_prefix 100 "{}");
         ("swapped.safetensors",
          (rev (le_bytes 8 2) ++ list_byte_of_string "{}")%list);
         ("bare.safetensors", container "{'x':{'dtype':'F32','shape':[1]}}" []);
         ("cut.bin", [x02; x00; x00]) ]%string.

Definition header_w1_w2 : string :=
  "{'w1':{'dtype':'F32','shape':[1],'data_offsets':[0,4]},'w2':{'dtype':'F32','shape':[1],'data_offsets':[4,8]}}".

(** [fs0] after [model/file1.safetensors] was rewritten to declare [w2]
    as well. *)
Definition fs1 : filesystem :=
  fun file_path =>
    if (file_path =? "model/file1.safetensors")%string
    then Some (container header_w1_w2 (zeros 8))
    else fs0 file_path.

Definition little : Runtime := Reference.runtime LittleEndian W64.
Definition big : Runtime := Reference.runtime BigEndian W64.

(** The package over [fs0], on the little-endian host. *)
Definition package0 : Safetensors := ReferencePackage.package (rt := little) fs0.

(** The aggregator the constructor gives over [fs0]. *)
Definition built (arg : file_paths_arg) : @SafetensorsWrapper package0 :=
  match @new package0 arg "pt" tt with
  | Ok self => self
  | Raise _ => @blank package0
  end.

Definition handle_of (file_path : string) (names : list string)
  : ReferencePackage.handle :=
  {| ReferencePackage.handle_path := file_path;
     ReferencePackage.handle_names := names |}.

End Files.

(** * The rest of the program *)

(** ** Iteration: [__iter__], [items], [slices] *)

(** A generator object: not started, suspended at its [yield] with the
    keys still to visit, or finished. *)
Inductive generator : Type :=
| Created
| Suspended (rest : list string)
| Finished.

(** What [next(g)] gives. *)
Inductive step (A : Type) : Type :=
| Yield (a : A)
| StopIteration
| Throw (e : exn).

Arguments Yield {A} a.
Arguments StopIteration {A}.
Arguments Throw {A} e.

Section Iteration.

Context {st : Safetensors}.

(** [iter(self.keys())], as the list it runs over. *)
Definition __iter__ (self : SafetensorsWrapper) : list string := keys self.

(** One [next] on the generator of [items] or [slices], [fetch] being
    [get_tensor] or [get_slice].  The first [next] evaluates [self.keys()];
    every [next] looks the key up in [self._tensors] as the object is at that
    moment, so [self] is an argument of each step.  An exception finishes
    the generator. *)
Definition pairs_next {X : Type} (fetch : Handle -> string -> result X)
  (self : SafetensorsWrapper) (g : generator)
  : step (string * X) * generator :=
  let visit (todo : list string) :=
    match todo with
    | [] => (StopIteration, Finished)
    | key :: rest =>
        match Dict.get (_tensors self) key with
        | None => (Throw (KeyError key), Finished)
        | Some file =>
            match fetch file key with
            | Ok x => (Yield (key, x), Suspended rest)
            | Raise e => (Throw e, Finished)
            end
        end
    end in
  match g with
  | Created => visit (keys self)
  | Suspended rest => visit rest
  | Finished => (StopIteration, Finished)
  end.

Definition items_next (self : SafetensorsWrapper) (g : generator)
  : step (string * Tensor) * generator :=
  pairs_next get_tensor self g.

Definition slices_next (self : SafetensorsWrapper) (g : generator)
  : step (string * Slice) * generator :=
  pairs_next get_slice self g.

End Iteration.

(** A [for] loop over a generator, the object unchanged meanwhile: the
    elements it saw and the exception that ended it, if one did.  [None]
    when [fuel] steps were not enough. *)
Fixpoint drain {A : Type} (next : generator -> step A * generator)
  (fuel : nat) (g : generator) : option (list A * option exn) :=
  match fuel with
  | O => None
  | S fuel' =>
      match next g with
      | (Yield a, g') =>
          match drain next fuel' g' with
          | Some (seen, e) => Some (a :: seen, e)
          | None => None
          end
      | (StopIteration, _) => Some ([], None)
      | (Throw e, _) => Some ([], Some e)
      end
  end.

(** [fetched_from fetch self k x]: the owner of [k] in the registry of
    [self] gives [x] for it. *)
Definition fetched_from {st : Safetensors} {X : Type}
  (fetch : Handle -> string -> result X) (self : SafetensorsWrapper)
  (k : string) (x : X) : Prop :=
  exists file, Dict.get (_tensors self) k = Some file /\ fetch file k = Ok x.

(** ** struct.pack('Q', n): the writer that [unpack_Q] reads back *)

Definition pack_Q (order : endianness) (n : Z) : result (list byte) :=
  if ((0 <=? n) && (n <? 2 ^ 64))%Z
  then Ok (match order with
           | LittleEndian => Files.le_bytes 8 n
           | BigEndian => rev (Files.le_bytes 8 n)
           end)
  else Raise StructError.

(** ** The command line: [main] *)

(** How a command ends when it does not return: an exception of the
    library part left uncaught, or one of the exceptions the command line
    itself deals in. *)
Inductive signal : Type :=
| Uncaught (e : exn)
| BrokenPipeError
| NameError (name : string)
| SystemExit (code : Z).

Inductive outcome (A : Type) : Type :=
| Done (a : A)
| Stop (s : signal).

Arguments Done {A} a.
Arguments Stop {A} s.

(** What [main] reaches outside the module: the standard output, where a
    write goes through ([true]) or raises [BrokenPipeError] ([false]), and
    the empty keyword arguments of [SafetensorsWrapper(file_paths)].
    [print_json v] is [print(json.dumps(v, indent=2))], the text of the
    document left to the terminal. *)
Class Terminal {st : Safetensors} : Type := {
  Out : Type;
  print : string -> Out -> bool * Out;
  print_json : json -> Out -> bool * Out;
  print_help : Out -> bool * Out;
  no_kv : Options
}.

(** The arguments [parse_args] gives for the three subcommands, or none. *)
Inductive arguments : Type :=
| ArgsMetadata (file_path : string)
| ArgsList (file_paths : list string)
| ArgsIndex (file_paths : list string)
| ArgsNone.

Section CommandLine.

Context {rt : Runtime} {st : Safetensors} {tm : Terminal}.

Definition io (A : Type) : Type := Out -> outcome A * Out.

Definition io_bind {A B : Type} (m : io A) (k : A -> io B) : io B :=
  fun out =>
    match m out with
    | (Done a, out') => k a out'
    | (Stop s, out') => (Stop s, out')
    end.

(** A call into the library part: its exception is not handled here. *)
Definition call {A : Type} (r : result A) : io A :=
  fun out =>
    match r with
    | Ok a => (Done a, out)
    | Raise e => (Stop (Uncaught e), out)
    end.

Definition write (w : Out -> bool * Out) : io unit :=
  fun out =>
    let '(ok, out') := w out in
    (if ok then Done tt else Stop BrokenPipeError, out').

Fixpoint io_for {X : Type} (xs : list X) (body : X -> io unit) : io unit :=
  match xs with
  | [] => fun out => (Done tt, out)
  | x :: xs' => io_bind (body x) (fun _ => io_for xs' body)
  end.

(** The module imports [os], [re], [struct], [json] and [safetensors], and
    [argparse] inside [main]: the name [sys] is bound nowhere, and
    evaluating it raises [NameError]. *)
Definition name_sys {A : Type} : io A :=
  fun out => (Stop (NameError "sys"), out).

(** [sys.stdout.close()] then [sys.exit(1)]. *)
Definition broken_pipe_handler : io unit :=
  io_bind (io_bind name_sys (fun sys : unit => fun out => (Done tt, out)))
    (fun _ =>
       io_bind name_sys (fun sys : unit => fun out => (Stop (SystemExit 1), out))).

(** [try: body except BrokenPipeError: handler] *)
Definition except_broken_pipe (body handler : io unit) : io unit :=
  fun out =>
    match body out with
    | (Stop BrokenPipeError, out') => handler out'
    | r => r
    end.

(** The index as the dictionary [json.dumps] receives. *)
Definition index_document (idx : index) : json :=
  JDict [("metadata"%string, JDict [("total_size"%string, total_size idx)]);
         ("weight_map"%string,
          JDict (map (fun kv => (fst kv, JStr (snd kv))) (weight_map idx)))].

Definition read_metadata (fs : filesystem) (file_path : string) : io unit :=
  except_broken_pipe
    (io_bind (call (read_safetensors_json fs file_path)) (fun metadata =>
     write (print_json metadata)))
    broken_pipe_handler.

Definition list_tensors (file_paths : list string) : io unit :=
  except_broken_pipe
    (io_bind (call (new (PathList file_paths) "pt" no_kv)) (fun wrapper =>
     io_for (keys wrapper) (fun tensor_name => write (print tensor_name))))
    broken_pipe_handler.

Definition generate_index (fs : filesystem) (file_paths : list string)
  : io unit :=
  except_broken_pipe
    (io_bind (call (new (PathList file_paths) "pt" no_kv)) (fun wrapper =>
     io_bind (call (get_index wrapper fs)) (fun index =>
     write (print_json (index_document index)))))
    broken_pipe_handler.

(** [main] from the parsed arguments on. *)
Definition main (fs : filesystem) (args : arguments) : io unit :=
  except_broken_pipe
    (match args with
     | ArgsMetadata file_path => read_metadata fs file_path
     | ArgsList file_paths => list_tensors file_paths
     | ArgsIndex file_paths => generate_index fs file_paths
     | ArgsNone => write print_help
     end)
    broken_pipe_handler.

(** The exit status of the interpreter. *)
Definition exit_status (r : outcome unit) : Z :=
  match r with
  | Done _ => 0
  | Stop (SystemExit code) => code
  | Stop _ => 1
  end.

(** How the body of a [try] may end: it returns, a library call raised, or
    a write found the pipe broken. *)
Definition raw (r : outcome unit) : Prop :=
  r = Done tt \/ (exists e, r = Stop (Uncaught e)) \/ r = Stop BrokenPipeError.

(** How a [try] with the handler may end. *)
Definition settled (r : outcome unit) : Prop :=
  r = Done tt \/ (exists e, r = Stop (Uncaught e))
  \/ r = Stop (NameError "sys").

End CommandLine.

(** ** A reference terminal: it records what was printed, and its reader
    goes away after [room] writes *)

Module Console.

Inductive printed : Type :=
| Line (text : string)
| Document (v : json)
| Help.

Record screen : Type := {
  shown : list printed;
  room : nat
}.

Definition put (item : printed) (scr : screen) : bool * screen :=
  match room scr with
  | O => (false, scr)
  | S n => (true, {| shown := shown scr ++ [item]; room := n |})
  end.

Definition terminal {st : Safetensors} (kv0 : Options) : Terminal :=
  {| Out := screen;
     print := fun text => put (Line text);
     print_json := fun v => put (Document v);
     print_help := put Help;
     no_kv := kv0 |}.

(** The terminal of the reference package, no keyword argument given. *)
Definition terminal0 : @Terminal Files.package0 :=
  @terminal Files.package0 (tt : @Options Files.package0).

Definition fresh (room : nat) : screen := {| shown := []; room := room |}.

End Console.

(** * Facts about the operations *)

Unset Implicit Arguments.

(** In [H : bind c k = Ok _], the call [c] returned: name its value [x]. *)
Ltac bind_ok H x :=
  match type of H with
  | bind ?c _ = Ok _ =>
      destruct c as [x|]; cbn [bind] in H; [|discriminate H]
  end.

(** ** dict *)

Section DictFacts.

Variable V : Type.
Implicit Types (d : dict V) (k : string) (v : V).

Lemma get_none_iff d k : Dict.get d k = None <-> ~ In k (Dict.keys d).
Proof.
  induction d as [|[k' v'] d IH]; simpl.
  - tauto.
  - destruct (String.eqb_spec k k') as [->|Hne].
    + split; [discriminate | intros H; exfalso; apply H; now left].
    + rewrite IH. split.
      * intros H [E|E]; [now apply Hne | now apply H].
      * intros H E. apply H. now right.
Qed.

Lemma contains_false_iff d k :
  Dict.contains d k = false <-> ~ In k (Dict.keys d).
Proof.
  unfold Dict.contains. rewrite <- get_none_iff.
  destruct (Dict.get d k); split; congruence.
Qed.

Lemma contains_true_iff d k :
  Dict.contains d k = true <-> In k (Dict.keys d).
Proof.
  destruct (Dict.contains d k) eqn:E.
  - split; [intros _ | reflexivity].
    destruct (in_dec string_dec k (Dict.keys d)) as [H|H]; [exact H|].
    apply contains_false_iff in H. congruence.
  - apply contains_false_iff in E. split; [discriminate | tauto].
Qed.

Lemma set_fresh d k v :
  ~ In k (Dict.keys d) -> Dict.set d k v = d ++ [(k, v)].
Proof.
  induction d as [|[k' v'] d IH]; simpl; intros H.
  - reflexivity.
  - destruct (String.eqb_spec k k') as [->|Hne].
    + exfalso. apply H. now left.
    + rewrite IH; [reflexivity | tauto].
Qed.

Lemma get_set_same d k v : Dict.get (Dict.set d k v) k = Some v.
Proof.
  induction d as [|[k' v'] d IH]; simpl.
  - now rewrite String.eqb_refl.
  - destruct (String.eqb_spec k k') as [->|Hne]; simpl.
    + now rewrite String.eqb_refl.
    + destruct (String.eqb_spec k k'); [contradiction | exact IH].
Qed.

Lemma get_set_other d k k' v :
  k' <> k -> Dict.get (Dict.set d k v) k' = Dict.get d k'.
Proof.
  intros Hne. induction d as [|[k0 v0] d IH]; simpl.
  - destruct (String.eqb_spec k' k); [contradiction | reflexivity].
  - destruct (String.eqb_spec k k0) as [->|Hk]; simpl.
    + destruct (String.eqb_spec k' k0); [contradiction | reflexivity].
    + destruct (String.eqb_spec k' k0); [reflexivity | exact IH].
Qed.

Lemma keys_app d1 d2 :
  Dict.keys (d1 ++ d2) = Dict.keys d1 ++ Dict.keys d2.
Proof. unfold Dict.keys. apply map_app. Qed.

End DictFacts.

Lemma keys_tagged (V : Type) (v : V) (ks : list string) :
  Dict.keys (map (fun k => (k, v)) ks) = ks.
Proof.
  unfold Dict.keys. rewrite map_map. simpl. apply map_id.
Qed.

Lemma nodup_app_inv (A : Type) (l1 l2 : list A) :
  NoDup (l1 ++ l2) ->
  NoDup l1 /\ NoDup l2 /\ (forall a, In a l2 -> ~ In a l1).
Proof.
  induction l1 as [|x l1 IH]; simpl; intros H.
  - repeat split; [constructor | exact H | tauto].
  - inversion H as [|? ? Hx Hnd]; subst.
    destruct (IH Hnd) as (H1 & H2 & H3).
    repeat split.
    + constructor; [|exact H1]. intros Hin. apply Hx, in_or_app. now left.
    + exact H2.
    + intros a Ha [E|E].
      * subst. apply Hx, in_or_app. now right.
      * now apply (H3 a).
Qed.

Lemma nodup_app_intro (A : Type) (l1 l2 : list A) :
  NoDup l1 -> NoDup l2 -> (forall a, In a l2 -> ~ In a l1) ->
  NoDup (l1 ++ l2).
Proof.
  intros H1 H2 H3. apply NoDup_app; [exact H1 | exact H2 |].
  intros a Ha1 Ha2. now apply (H3 a).
Qed.

(** ** Loops *)

Lemma for_each_app (S X : Type) (l1 l2 : list X) (body : X -> method S unit)
  (self : S) :
  for_each (l1 ++ l2) body self =
  match for_each l1 body self with
  | (Ok _, self') => for_each l2 body self'
  | (Raise e, self') => (Raise e, self')
  end.
Proof.
  revert self. induction l1 as [|x l1 IH]; intros self; simpl.
  - reflexivity.
  - unfold mbind. destruct (body x self) as [[[]|e] self']; [apply IH | reflexivity].
Qed.

Lemma foldM_cons (A X : Type) (f : A -> X -> result A) (x : X) (xs : list X)
  (a : A) :
  foldM f (x :: xs) a = bind (f a x) (foldM f xs).
Proof. reflexivity. Qed.

Lemma foldM_app (A X : Type) (f : A -> X -> result A) (l1 l2 : list X) (a : A) :
  foldM f (l1 ++ l2) a = bind (foldM f l1 a) (foldM f l2).
Proof.
  revert a. induction l1 as [|x l1 IH]; intros a; simpl.
  - reflexivity.
  - destruct (f a x) as [a'|e]; simpl; [apply IH | reflexivity].
Qed.

(** ** Construction *)

Section Construction.

Context {st : Safetensors}.
Variables (framework : string) (kv : Options).

Implicit Types (self : SafetensorsWrapper) (file : Handle).

Lemma set_tensors_twice self t1 t2 :
  set_tensors (set_tensors self t1) t2 = set_tensors self t2.
Proof. reflexivity. Qed.

Lemma set_tensors_same self : set_tensors self (_tensors self) = self.
Proof. now destruct self. Qed.

(** The loop over the keys of one file, when no key is in the way. *)
Lemma merge_keys_ok file ks : forall self,
  NoDup ks ->
  (forall k, In k ks -> ~ In k (Dict.keys (_tensors self))) ->
  for_each ks (merge_key file) self =
  (Ok tt, set_tensors self (_tensors self ++ map (fun k => (k, file)) ks)).
Proof.
  induction ks as [|k ks IH]; intros self Hnd Hfresh; simpl.
  - unfold mret. now rewrite app_nil_r, set_tensors_same.
  - inversion Hnd as [|? ? Hk Hnd']; subst.
    unfold mbind at 1. unfold merge_key at 1. unfold mbind, attr.
    assert (Hc : Dict.contains (_tensors self) k = false).
    { apply contains_false_iff, Hfresh. now left. }
    rewrite Hc. unfold assign.
    rewrite set_fresh by (apply Hfresh; now left).
    rewrite IH; [| exact Hnd' |].
    + simpl. rewrite set_tensors_twice, <- app_assoc. reflexivity.
    + intros k' Hk'. simpl. rewrite keys_app. simpl.
      intros Hin. apply in_app_or in Hin. destruct Hin as [Hin|[->|[]]].
      * apply (Hfresh k'); [now right | exact Hin].
      * contradiction.
Qed.

(** The loop over the keys of one file returns only when no key was in
    the way. *)
Lemma merge_keys_inv file ks : forall self self',
  for_each ks (merge_key file) self = (Ok tt, self') ->
  NoDup ks /\ (forall k, In k ks -> ~ In k (Dict.keys (_tensors self))).
Proof.
  induction ks as [|k ks IH]; intros self self' H; simpl in H.
  - split; [constructor | intros k []].
  - unfold mbind at 1 in H. unfold merge_key at 1 in H.
    unfold mbind, attr in H.
    destruct (Dict.contains (_tensors self) k) eqn:Hc.
    + discriminate.
    + unfold assign in H. apply contains_false_iff in Hc.
      rewrite set_fresh in H by exact Hc.
      apply IH in H. destruct H as [Hnd Hfresh]. simpl in Hfresh.
      split.
      * constructor; [|exact Hnd]. intros Hin.
        apply (Hfresh k Hin). rewrite keys_app. apply in_or_app.
        right. now left.
      * intros k' [<-|Hk']; [exact Hc|].
        intros Hin. apply (Hfresh k' Hk'). rewrite keys_app.
        apply in_or_app. now left.
Qed.

(** The loop stops at the first key that is in the registry already. *)
Lemma merge_keys_collision file pre k post self :
  NoDup pre ->
  (forall k', In k' pre -> ~ In k' (Dict.keys (_tensors self))) ->
  In k (Dict.keys (_tensors self) ++ pre) ->
  for_each (pre ++ k :: post) (merge_key file) self =
  (Raise (ValueError (collision_message k)),
   set_tensors self (_tensors self ++ map (fun k => (k, file)) pre)).
Proof.
  intros Hnd Hfresh Hin.
  rewrite for_each_app, merge_keys_ok by assumption.
  simpl. unfold mbind at 1. unfold merge_key at 1. unfold mbind, attr.
  simpl.
  assert (Hc : Dict.contains (_tensors self ++ map (fun k => (k, file)) pre) k
               = true).
  { apply contains_true_iff. now rewrite keys_app, keys_tagged. }
  rewrite Hc. reflexivity.
Qed.

Lemma load_file_ok file_path file self :
  safe_open file_path framework kv = Ok file ->
  NoDup (handle_keys file) ->
  (forall k, In k (handle_keys file) -> ~ In k (Dict.keys (_tensors self))) ->
  _load_file file_path framework kv self =
  (Ok tt, {| _file_paths := _file_paths self ++ [file_path];
             _tensors := _tensors self ++ entries_of file |}).
Proof.
  intros Hopen Hnd Hfresh. unfold _load_file, mbind, lift.
  rewrite Hopen, merge_keys_ok by assumption. reflexivity.
Qed.

Lemma load_file_inv file_path self self' :
  _load_file file_path framework kv self = (Ok tt, self') ->
  exists file,
    safe_open file_path framework kv = Ok file
    /\ NoDup (handle_keys file)
    /\ (forall k, In k (handle_keys file) ->
                  ~ In k (Dict.keys (_tensors self))).
Proof.
  unfold _load_file, mbind, lift. intros H.
  destruct (safe_open file_path framework kv) as [file|e]; [|discriminate].
  destruct (for_each (handle_keys file) (merge_key file) self)
    as [[[]|e] s1] eqn:Hloop; [|discriminate].
  exists file. split; [reflexivity|]. exact (merge_keys_inv _ _ _ _ Hloop).
Qed.

Lemma load_file_collision file_path file pre k post self :
  safe_open file_path framework kv = Ok file ->
  handle_keys file = pre ++ k :: post ->
  NoDup pre ->
  (forall k', In k' pre -> ~ In k' (Dict.keys (_tensors self))) ->
  In k (Dict.keys (_tensors self) ++ pre) ->
  fst (_load_file file_path framework kv self)
  = Raise (ValueError (collision_message k)).
Proof.
  intros Hopen Hkeys Hnd Hfresh Hin. unfold _load_file, mbind, lift.
  rewrite Hopen, Hkeys, merge_keys_collision by assumption. reflexivity.
Qed.

Lemma keys_registry_of (files : list Handle) :
  Dict.keys (registry_of files) = all_keys files.
Proof.
  unfold registry_of, all_keys. induction files as [|f fs IH]; simpl.
  - reflexivity.
  - rewrite keys_app, IH. unfold entries_of. now rewrite keys_tagged.
Qed.

(** The loop of [__init__] over files that open and share no name. *)
Lemma load_all_ok ps files : forall self,
  opened framework kv ps files ->
  NoDup (Dict.keys (_tensors self) ++ all_keys files) ->
  load_all framework kv ps self =
  (Ok tt, {| _file_paths := _file_paths self ++ ps;
             _tensors := _tensors self ++ registry_of files |}).
Proof.
  unfold load_all. intros self Hop. revert self.
  induction Hop as [|p file ps files Hopen Hop IH]; intros self Hnd; simpl.
  - unfold mret. rewrite !app_nil_r. now destruct self.
  - unfold all_keys in Hnd. simpl in Hnd. rewrite app_assoc in Hnd.
    destruct (nodup_app_inv _ _ _ Hnd) as (H1 & _ & _).
    destruct (nodup_app_inv _ _ _ H1) as (_ & Hf & Hfresh).
    unfold mbind. rewrite (load_file_ok _ _ _ Hopen Hf Hfresh).
    rewrite IH.
    + simpl. now rewrite <- !app_assoc.
    + simpl. rewrite keys_app. unfold entries_of. rewrite keys_tagged.
      exact Hnd.
Qed.

(** The loop of [__init__] returns only over such files. *)
Lemma load_all_inv ps : forall self self',
  NoDup (Dict.keys (_tensors self)) ->
  load_all framework kv ps self = (Ok tt, self') ->
  exists files,
    opened framework kv ps files
    /\ NoDup (Dict.keys (_tensors self) ++ all_keys files).
Proof.
  unfold load_all.
  induction ps as [|p ps IH]; intros self self' Hnd H; simpl in H.
  - exists []. split; [constructor|]. unfold all_keys. simpl.
    now rewrite app_nil_r.
  - unfold mbind in H.
    destruct (_load_file p framework kv self) as [[[]|e] s1] eqn:Hload;
      [|discriminate].
    destruct (load_file_inv _ _ _ Hload) as (file & Hopen & Hf & Hfresh).
    rewrite (load_file_ok _ _ _ Hopen Hf Hfresh) in Hload.
    injection Hload as <-.
    assert (Hnd1 : NoDup (Dict.keys (_tensors self) ++ handle_keys file))
      by now apply nodup_app_intro.
    apply IH in H.
    + destruct H as (files & Hop & Hall). exists (file :: files).
      split; [now constructor|].
      simpl in Hall. rewrite keys_app in Hall. unfold entries_of in Hall.
      rewrite keys_tagged, <- app_assoc in Hall. exact Hall.
    + simpl. rewrite keys_app. unfold entries_of. now rewrite keys_tagged.
Qed.

(** The loop of [__init__] stops in the file that repeats a name. *)
Lemma load_all_collision ps1 files1 p file pre k post ps2 self :
  opened framework kv ps1 files1 ->
  safe_open p framework kv = Ok file ->
  handle_keys file = pre ++ k :: post ->
  NoDup (Dict.keys (_tensors self) ++ all_keys files1 ++ pre) ->
  In k (Dict.keys (_tensors self) ++ all_keys files1 ++ pre) ->
  fst (load_all framework kv (ps1 ++ p :: ps2) self)
  = Raise (ValueError (collision_message k)).
Proof.
  intros Hop Hopen Hkeys Hnd Hin. unfold load_all.
  rewrite for_each_app. fold (load_all framework kv ps1).
  rewrite app_assoc in Hnd, Hin.
  destruct (nodup_app_inv _ _ _ Hnd) as (Hnd1 & Hpre & Hfresh).
  rewrite (load_all_ok _ _ _ Hop Hnd1). simpl. unfold mbind.
  match goal with
  | |- fst (match ?x with _ => _ end) = _ =>
      assert (Hl : fst x = Raise (ValueError (collision_message k)))
  end.
  { apply (load_file_collision _ _ _ _ _ _ Hopen Hkeys Hpre); simpl;
      rewrite keys_app, keys_registry_of; assumption. }
  match goal with
  | |- fst (match ?x with _ => _ end) = _ => destruct x as [[[]|e] s1]
  end; simpl in Hl; [discriminate | exact Hl].
Qed.

(** What the constructor returns over files that open and share no
    name. *)
Lemma new_ok arg files :
  opened framework kv (paths_of arg) files ->
  NoDup (all_keys files) ->
  new arg framework kv =
  Ok {| _file_paths := paths_of arg; _tensors := registry_of files |}.
Proof.
  intros Hop Hnd. unfold new, __init__, mbind, assign.
  fold (paths_of arg). fold (load_all framework kv (paths_of arg)).
  rewrite (load_all_ok _ _ _ Hop) by exact Hnd. reflexivity.
Qed.

(** The constructor returns only over such files. *)
Lemma new_inv arg self :
  new arg framework kv = Ok self ->
  exists files,
    opened framework kv (paths_of arg) files
    /\ NoDup (all_keys files)
    /\ self = {| _file_paths := paths_of arg;
                 _tensors := registry_of files |}.
Proof.
  intros H. unfold new, __init__, mbind, assign in H.
  fold (paths_of arg) in H. fold (load_all framework kv (paths_of arg)) in H.
  match type of H with
  | match ?x with _ => _ end = _ => destruct x as [[[]|e] s1] eqn:Hl
  end; [|discriminate].
  injection H as ->.
  change (set_tensors (set_file_paths blank []) Dict.empty) with blank in Hl.
  destruct (load_all_inv _ blank _ (NoDup_nil _) Hl) as (files & Hop & Hnd).
  exists files. split; [exact Hop|]. split; [exact Hnd|].
  rewrite (load_all_ok _ _ _ Hop Hnd) in Hl. now injection Hl as <-.
Qed.

End Construction.

(** ** get_index *)

Section Index.

Context {rt : Runtime}.
Variable fs : filesystem.

Local Open Scope string_scope.

Lemma assign_all_cons wm k names file_name :
  assign_all wm (k :: names) file_name
  = assign_all (Dict.set wm k file_name) names file_name.
Proof. reflexivity. Qed.

Lemma get_assign_all_notin names : forall wm file_name name,
  ~ In name names ->
  Dict.get (assign_all wm names file_name) name = Dict.get wm name.
Proof.
  induction names as [|k names IH]; intros wm file_name name Hn.
  - reflexivity.
  - rewrite assign_all_cons, IH by (intros H; apply Hn; now right).
    apply get_set_other. intros ->. apply Hn. now left.
Qed.

Lemma get_assign_all_in names : forall wm file_name name,
  In name names ->
  Dict.get (assign_all wm names file_name) name = Some file_name.
Proof.
  induction names as [|k names IH]; intros wm file_name name Hin.
  - destruct Hin.
  - rewrite assign_all_cons.
    destruct (in_dec string_dec name names) as [Hn|Hn].
    + now apply IH.
    + destruct Hin as [->|Hin]; [|contradiction].
      rewrite get_assign_all_notin by exact Hn. apply get_set_same.
Qed.

Lemma assign_all_app wm names1 names2 file_name :
  assign_all wm (names1 ++ names2) file_name
  = assign_all (assign_all wm names1 file_name) names2 file_name.
Proof. unfold assign_all. apply fold_left_app. Qed.

(** The [__metadata__] entry is skipped. *)
Lemma index_entry_metadata file_name acc item :
  is_tensor_entry item = false ->
  index_entry file_name acc item = Ok acc.
Proof.
  destruct acc as [wm ts], item as [k v]. unfold is_tensor_entry. simpl.
  intros H. apply negb_false_iff in H. now rewrite H.
Qed.

(** A tensor entry is put in the weight map, whatever follows. *)
Lemma index_entry_weight_map file_name wm ts item wm' ts' :
  is_tensor_entry item = true ->
  index_entry file_name (wm, ts) item = Ok (wm', ts') ->
  wm' = Dict.set wm (fst item) file_name.
Proof.
  destruct item as [k v]. unfold is_tensor_entry. simpl. intros H.
  apply negb_true_iff in H. rewrite H. intros E.
  bind_ok E offsets. bind_ok E stop. bind_ok E start. bind_ok E span.
  bind_ok E total. now injection E as <- _.
Qed.

(** A tensor entry with integer offsets adds its span to the total. *)
Lemma index_entry_span file_name wm t item n :
  is_tensor_entry item = true ->
  span_of (snd item) = Some n ->
  index_entry file_name (wm, JInt t) item
  = Ok (Dict.set wm (fst item) file_name, JInt (t + n)).
Proof.
  destruct item as [k v]. unfold is_tensor_entry. simpl. intros H Hs.
  apply negb_true_iff in H. rewrite H.
  destruct v as [| | | | |l|d]; try discriminate. simpl in Hs. simpl.
  destruct (Dict.get d "data_offsets") as [o|]; [|discriminate].
  destruct o as [| | | | |l|]; try discriminate.
  destruct l as [|[| |start| | | |] [|[| |stop| | | |] l]]; try discriminate.
  injection Hs as <-. reflexivity.
Qed.

Lemma tensor_names_cons item items :
  tensor_names (item :: items)
  = if is_tensor_entry item then fst item :: tensor_names items
    else tensor_names items.
Proof.
  unfold tensor_names, tensor_entries. simpl.
  now destruct (is_tensor_entry item).
Qed.

(** The inner loop, when it returns: the weight map it leaves. *)
Lemma index_entries_weight_map file_name items : forall wm ts wm' ts',
  foldM (index_entry file_name) items (wm, ts) = Ok (wm', ts') ->
  wm' = assign_all wm (tensor_names items) file_name.
Proof.
  induction items as [|item items IH]; intros wm ts wm' ts' H.
  - simpl in H. now injection H as <- _.
  - rewrite foldM_cons in H. rewrite tensor_names_cons.
    destruct (is_tensor_entry item) eqn:Hi.
    + destruct (index_entry file_name (wm, ts) item) as [[wm1 ts1]|] eqn:E;
        simpl in H; [|discriminate].
      apply (index_entry_weight_map _ _ _ _ _ _ Hi) in E. subst wm1.
      rewrite assign_all_cons. exact (IH _ _ _ _ H).
    + rewrite index_entry_metadata in H by exact Hi. exact (IH _ _ _ _ H).
Qed.

(** The inner loop over a well-formed header. *)
Lemma index_entries_total file_name items : forall wm t,
  well_formed items ->
  foldM (index_entry file_name) items (wm, JInt t)
  = Ok (assign_all wm (tensor_names items) file_name,
        JInt (t + sum_Z (map span_or_zero (tensor_entries items)))).
Proof.
  unfold well_formed.
  induction items as [|item items IH]; intros wm t Hwf.
  - simpl. now rewrite Z.add_0_r.
  - rewrite foldM_cons, tensor_names_cons.
    unfold tensor_entries in *. cbn [filter] in *.
    destruct (is_tensor_entry item) eqn:Hi.
    + inversion Hwf as [|? ? Hitem Hrest]; subst.
      unfold has_offsets in Hitem.
      destruct (span_of (snd item)) as [n|] eqn:Hs; [|congruence].
      rewrite (index_entry_span _ _ _ _ _ Hi Hs). cbn [bind].
      rewrite IH by exact Hrest. rewrite assign_all_cons.
      cbn [map]. unfold sum_Z. cbn [fold_right]. unfold span_or_zero at 2.
      rewrite Hs. now rewrite Z.add_assoc.
    + rewrite index_entry_metadata by exact Hi. cbn [bind]. now apply IH.
Qed.

(** One file, when the loop body returns: the weight map it leaves. *)
Lemma index_file_weight_map wm ts file_path wm' ts' :
  index_file fs (wm, ts) file_path = Ok (wm', ts') ->
  wm' = assign_all wm (names_on_disk fs file_path) (basename file_path).
Proof.
  unfold index_file, names_on_disk. intros H.
  bind_ok H metadata. destruct metadata; try discriminate.
  cbn [items_of bind] in H.
  exact (index_entries_weight_map _ _ _ _ _ _ H).
Qed.

(** One file with a well-formed header. *)
Lemma index_file_total wm t file_path header :
  read_safetensors_json fs file_path = Ok (JDict header) ->
  well_formed header ->
  index_file fs (wm, JInt t) file_path
  = Ok (assign_all wm (tensor_names header) (basename file_path),
        JInt (t + sum_Z (map span_or_zero (tensor_entries header)))).
Proof.
  intros Hread Hwf. unfold index_file. rewrite Hread. simpl.
  now apply index_entries_total.
Qed.

(** The outer loop over well-formed headers returns, with the sum of the
    spans. *)
Lemma index_files_total ps headers : forall wm t,
  parsed fs ps headers ->
  Forall well_formed headers ->
  exists wm',
    foldM (index_file fs) ps (wm, JInt t)
    = Ok (wm', JInt (t + spec_total_size headers)).
Proof.
  intros wm t Hp. revert wm t.
  induction Hp as [|p header ps headers Hread Hp IH]; intros wm t Hwf.
  - exists wm. unfold spec_total_size. simpl. now rewrite Z.add_0_r.
  - inversion Hwf as [|? ? Hh Hrest]; subst. rewrite foldM_cons.
    rewrite (index_file_total _ _ _ _ Hread Hh). cbn [bind].
    destruct (IH (assign_all wm (tensor_names header) (basename p))
                (t + sum_Z (map span_or_zero (tensor_entries header)))%Z
                Hrest) as (wm' & E).
    exists wm'. rewrite E. unfold spec_total_size. simpl.
    rewrite map_app. unfold sum_Z. rewrite fold_right_app.
    fold (sum_Z (map span_or_zero (flat_map tensor_entries headers))).
    f_equal. f_equal. f_equal.
    generalize (sum_Z (map span_or_zero (flat_map tensor_entries headers))).
    generalize (map span_or_zero (tensor_entries header)).
    intros l z. induction l as [|x l IHl]; simpl; lia.
Qed.

(** Files that do not declare a name leave its entry alone. *)
Lemma index_files_keep name ps : forall wm ts wm' ts',
  foldM (index_file fs) ps (wm, ts) = Ok (wm', ts') ->
  (forall p, In p ps -> ~ In name (names_on_disk fs p)) ->
  Dict.get wm' name = Dict.get wm name.
Proof.
  induction ps as [|p ps IH]; intros wm ts wm' ts' H Hn.
  - simpl in H. now injection H as <- _.
  - rewrite foldM_cons in H. destruct (index_file fs (wm, ts) p) as [[wm1 ts1]|] eqn:E;
      simpl in H; [|discriminate].
    rewrite (IH _ _ _ _ H) by (intros q Hq; apply Hn; now right).
    apply index_file_weight_map in E. subst wm1.
    apply get_assign_all_notin, Hn. now left.
Qed.

End Index.

(** ** read_safetensors_json *)

Section Header.

Context {rt : Runtime}.

Lemma le_to_Z_nonneg (bs : list byte) : (0 <= le_to_Z bs)%Z.
Proof.
  induction bs as [|b bs IH]; cbn [le_to_Z]; [lia|].
  unfold Z_of_byte. pose proof (N2Z.is_nonneg (Byte.to_N b)). lia.
Qed.

(** [f.read(n)] gives the next [n] bytes, or all of them when fewer are
    left. *)
Lemma f_read_spec (w : wordsize) (limit n : Z) (f : list byte) :
  (0 <= n <= maxsize w)%Z ->
  (n <= limit)%Z ->
  f_read w limit n f = Ok (firstn (Z.to_nat n) f, skipn (Z.to_nat n) f).
Proof.
  intros Hn Hl. unfold f_read.
  destruct (Z.ltb_spec (maxsize w) n) as [H|_]; [lia|].
  destruct (Z.ltb_spec limit n) as [H|_]; [lia|].
  destruct (Z.leb_spec (Z.of_nat (List.length f)) n) as [H|_].
  - rewrite firstn_all2, skipn_all2 by lia. reflexivity.
  - reflexivity.
Qed.

Lemma f_read_short (w : wordsize) (limit n : Z) (f : list byte) :
  (Z.of_nat (List.length f) <= n <= maxsize w)%Z ->
  (n <= limit)%Z ->
  f_read w limit n f = Ok (f, []).
Proof.
  intros Hn Hl. unfold f_read.
  destruct (Z.ltb_spec (maxsize w) n) as [H|_]; [lia|].
  destruct (Z.ltb_spec limit n) as [H|_]; [lia|].
  destruct (Z.leb_spec (Z.of_nat (List.length f)) n) as [_|H]; [|lia].
  reflexivity.
Qed.

Lemma f_read_8 (f : list byte) :
  f_read word alloc_limit 8 f = Ok (firstn 8 f, skipn 8 f).
Proof.
  apply (f_read_spec word alloc_limit 8 f).
  - destruct word; simpl; lia.
  - apply Z.leb_le, alloc_limit_ge_8.
Qed.

(** With fewer than 8 bytes in the file, [struct.unpack] raises. *)
Lemma read_header_size_short (f : list byte) :
  List.length f < 8 -> read_header_size f = Raise StructError.
Proof.
  intros H. unfold read_header_size.
  rewrite f_read_8, firstn_all2, skipn_all2 by lia. cbn [bind].
  unfold unpack_Q.
  destruct (Nat.eqb_spec (List.length f) 8); [lia | reflexivity].
Qed.

(** With 8 bytes or more, the size is the first 8 bytes read in the byte
    order of the host. *)
Lemma read_header_size_native (prefix body : list byte) :
  List.length prefix = 8 ->
  read_header_size (prefix ++ body)
  = Ok (match byteorder with
        | LittleEndian => le_to_Z prefix
        | BigEndian => be_to_Z prefix
        end, body).
Proof.
  intros H. unfold read_header_size. rewrite f_read_8.
  rewrite <- H at 1 2. rewrite firstn_app, skipn_app.
  rewrite firstn_all, skipn_all, Nat.sub_diag.
  cbn [firstn skipn app bind]. rewrite !app_nil_r.
  unfold unpack_Q. now rewrite H.
Qed.

(** A body shorter than the declared size is read as it is. *)
Lemma read_header_bytes_short (prefix body : list byte) (N : Z) :
  List.length prefix = 8 ->
  unpack_Q byteorder prefix = Ok N ->
  (Z.of_nat (List.length body) <= N <= maxsize word)%Z ->
  (N <= alloc_limit)%Z ->
  read_header_bytes (prefix ++ body) = Ok body.
Proof.
  intros H HN Hlen Hmem. unfold read_header_bytes.
  rewrite (read_header_size_native _ _ H). simpl.
  unfold unpack_Q in HN. rewrite H in HN. simpl in HN.
  injection HN as HN. rewrite HN.
  now rewrite f_read_short.
Qed.

(** A body of the declared size or more gives exactly the declared
    bytes. *)
Lemma read_header_bytes_exact (prefix body : list byte) (N : Z) :
  List.length prefix = 8 ->
  unpack_Q byteorder prefix = Ok N ->
  (N <= maxsize word)%Z ->
  (N <= alloc_limit)%Z ->
  (N <= Z.of_nat (List.length body))%Z ->
  read_header_bytes (prefix ++ body) = Ok (firstn (Z.to_nat N) body).
Proof.
  intros H HN Hmax Hmem Hlen. unfold read_header_bytes.
  rewrite (read_header_size_native _ _ H). simpl.
  unfold unpack_Q in HN. rewrite H in HN. simpl in HN.
  injection HN as HN. rewrite HN.
  assert (0 <= N)%Z.
  { subst N. destruct byteorder; unfold be_to_Z; apply le_to_Z_nonneg. }
  rewrite f_read_spec by lia. reflexivity.
Qed.

End Header.

(** ** Paths and the files they open *)

Section Opened.

Context {st : Safetensors}.
Variables (framework : string) (kv : Options).

Lemma new_unfold arg :
  new arg framework kv =
  match load_all framework kv (paths_of arg) blank with
  | (Ok _, self) => Ok self
  | (Raise e, _) => Raise e
  end.
Proof. now destruct arg. Qed.

Lemma opened_file_of_path ps files :
  opened framework kv ps files ->
  forall p, In p ps ->
  exists file, In file files /\ safe_open p framework kv = Ok file.
Proof.
  induction 1 as [|q f ps files Hq _ IH]; intros p Hin.
  - destruct Hin.
  - destruct Hin as [<-|Hin].
    + exists f. split; [now left | exact Hq].
    + destruct (IH p Hin) as (file & Hf & Ho). exists file.
      split; [now right | exact Ho].
Qed.

Lemma opened_path_of_file ps files :
  opened framework kv ps files ->
  forall file, In file files ->
  exists p, In p ps /\ safe_open p framework kv = Ok file.
Proof.
  induction 1 as [|q f ps files Hq _ IH]; intros file Hin.
  - destruct Hin.
  - destruct Hin as [<-|Hin].
    + exists q. split; [now left | exact Hq].
    + destruct (IH file Hin) as (p & Hp & Ho). exists p.
      split; [now right | exact Ho].
Qed.

Lemma len_registry_of files :
  Dict.len (registry_of files) = List.length (all_keys files).
Proof.
  rewrite <- keys_registry_of. unfold Dict.len, Dict.keys.
  now rewrite length_map.
Qed.

End Opened.

(** ** The index as a whole *)

Section WholeIndex.

Context {rt : Runtime} {st : Safetensors}.
Variable fs : filesystem.

Lemma get_index_inv self idx :
  get_index self fs = Ok idx ->
  foldM (index_file fs) (_file_paths self) (Dict.empty, JInt 0)
  = Ok (weight_map idx, total_size idx).
Proof.
  unfold get_index. intros H. bind_ok H acc. destruct acc as [wm ts].
  now injection H as <-.
Qed.

(** The last file that declares a name owns its entry of the weight
    map. *)
Lemma index_files_last ps1 p ps2 name wm ts wm' ts' :
  foldM (index_file fs) (ps1 ++ p :: ps2) (wm, ts) = Ok (wm', ts') ->
  In name (names_on_disk fs p) ->
  (forall q, In q ps2 -> ~ In name (names_on_disk fs q)) ->
  Dict.get wm' name = Some (basename p).
Proof.
  intros H Hin Hlater. rewrite foldM_app in H.
  destruct (foldM (index_file fs) ps1 (wm, ts)) as [[wm1 ts1]|];
    cbn [bind] in H; [|discriminate].
  rewrite foldM_cons in H.
  destruct (index_file fs (wm1, ts1) p) as [[wm2 ts2]|] eqn:E;
    cbn [bind] in H; [|discriminate].
  rewrite (index_files_keep fs name ps2 _ _ _ _ H Hlater).
  apply index_file_weight_map in E. subst wm2.
  now apply get_assign_all_in.
Qed.

End WholeIndex.

(** ** basename *)

Lemma basename_aux_component (name : string) : forall cur,
  is_component name = true -> basename_aux cur name = (cur ++ name)%string.
Proof.
  induction name as [|c name IH]; intros cur H; simpl in *.
  - clear H. induction cur as [|a cur IHc]; simpl; [reflexivity | now f_equal].
  - apply andb_true_iff in H. destruct H as [Hc Hn].
    apply negb_true_iff in Hc. rewrite Hc, IH by exact Hn.
    clear. induction cur as [|a cur IHc]; simpl; [reflexivity | now f_equal].
Qed.

Lemma basename_aux_directory (dir name : string) : forall cur,
  basename_aux cur (dir ++ String "/"%char name)%string
  = basename_aux EmptyString name.
Proof.
  induction dir as [|c dir IH]; intros cur; simpl.
  - reflexivity.
  - destruct (Ascii.eqb c "/"%char); apply IH.
Qed.

(** The directory part of a path is stripped. *)
Lemma basename_strips_directory (dir name : string) :
  is_component name = true ->
  basename (dir ++ String "/"%char name)%string = name.
Proof.
  intros H. unfold basename.
  now rewrite basename_aux_directory, basename_aux_component.
Qed.

(** ** Header names *)

Lemma nodup_tensor_names (header : dict json) :
  NoDup (Dict.keys header) -> NoDup (tensor_names header).
Proof.
  unfold Dict.keys, tensor_names, tensor_entries.
  induction header as [|item header IH]; simpl; intros H.
  - constructor.
  - inversion H as [|? ? Hx Hnd]; subst.
    destruct (is_tensor_entry item); [|now apply IH].
    simpl. constructor; [|now apply IH].
    intros Hin. apply Hx. apply in_map_iff in Hin.
    destruct Hin as (x & Hfst & Hx'). apply filter_In in Hx'.
    apply in_map_iff. exists x. tauto.
Qed.

(** * The properties of the specification *)

Local Open Scope string_scope.
Local Open Scope list_scope.

(** C1. Construction is all-or-nothing on a name collision.  Take any
    sequence of paths and the first tensor name [k] that is in the registry
    already when the loop of [_load_file] reaches it: the files before it
    opened and their names, with the names [pre] of the same file that come
    before [k], are pairwise distinct, and [k] is one of them.  Then the
    constructor raises the collision error naming [k], whatever paths follow,
    and the caller receives no aggregator. *)
Theorem collision_aborts_construction {st : Safetensors}
  (framework : string) (kv : Options) (arg : file_paths_arg)
  (ps1 : list string) (files1 : list Handle) (p : string) (file : Handle)
  (pre : list string) (k : string) (post : list string) (ps2 : list string) :
  paths_of arg = ps1 ++ p :: ps2 ->
  opened framework kv ps1 files1 ->
  safe_open p framework kv = Ok file ->
  handle_keys file = pre ++ k :: post ->
  NoDup (all_keys files1 ++ pre) ->
  In k (all_keys files1 ++ pre) ->
  new arg framework kv = Raise (ValueError (collision_message k))
  /\ (forall self, new arg framework kv <> Ok self).
Proof.
  intros Hps Hop Hopen Hkeys Hnd Hin.
  assert (E : new arg framework kv = Raise (ValueError (collision_message k))).
  { rewrite new_unfold, Hps.
    pose proof (load_all_collision framework kv ps1 files1 p file pre k post
                  ps2 blank Hop Hopen Hkeys Hnd Hin) as H.
    destruct (load_all framework kv (ps1 ++ p :: ps2) blank) as [[[]|e] s1];
      simpl in H; [discriminate | now injection H as ->]. }
  split; [exact E|]. intros self H. rewrite E in H. discriminate.
Qed.

Lemma collision_aborts_construction_witness :
  @safe_open Files.package0 "other/w.safetensors" "pt" tt
  = Ok (Files.handle_of "other/w.safetensors" ["w"])
  /\ @safe_open Files.package0 "other/w_again.safetensors" "pt" tt
     = Ok (Files.handle_of "other/w_again.safetensors" ["w"])
  /\ @new Files.package0
       (PathList ["other/w.safetensors"; "other/w_again.safetensors"]) "pt" tt
     = Raise (ValueError (collision_message "w")).
Proof.
  split; [reflexivity|]. split; [reflexivity|].
  apply (@collision_aborts_construction Files.package0 "pt" tt
           (PathList ["other/w.safetensors"; "other/w_again.safetensors"])
           ["other/w.safetensors"]
           [Files.handle_of "other/w.safetensors" ["w"]]
           "other/w_again.safetensors"
           (Files.handle_of "other/w_again.safetensors" ["w"])
           [] "w" [] []).
  - reflexivity.
  - constructor; [reflexivity | constructor].
  - reflexivity.
  - reflexivity.
  - simpl. constructor; [intros [] | constructor].
  - simpl. now left.
Defined.

(** C6. On a name that is not in the registry, [get] returns the default
    the caller gave and does not raise, while the strict accessor
    [__getitem__] raises [KeyError] with the message naming the tensor. *)
Theorem get_default_getitem_not_found {st : Safetensors} (D : Type)
  (self : SafetensorsWrapper) (name : string) (default : D) :
  __contains__ self name = false ->
  get self name default = Ok (inr default)
  /\ __getitem__ self name = Raise (KeyError (not_found_message name)).
Proof.
  unfold __contains__, get, __getitem__. intros H. rewrite H. now split.
Qed.

Lemma get_default_getitem_not_found_witness :
  exists self,
    @new Files.package0 (OnePath "model/a.safetensors") "pt" tt = Ok self
    /\ @__contains__ Files.package0 self "b" = false
    /\ @get Files.package0 nat self "b" 7 = Ok (inr 7)
    /\ @__getitem__ Files.package0 self "b"
       = Raise (KeyError "Tensor 'b' not found in any wrapped files.").
Proof.
  eexists. split; [reflexivity|]. split; [reflexivity|].
  apply (@get_default_getitem_not_found Files.package0 nat _ "b" 7).
  reflexivity.
Defined.

(** C8. A bare path [p] and the one-element list [[p]] are the same
    argument to the constructor: [__init__] runs the same way from any
    object, so the call gives the same aggregator, or raises the same
    exception, and every query answers alike. *)
Theorem one_path_is_one_element_list {st : Safetensors}
  (framework : string) (kv : Options) (p : string) :
  (forall self0,
     __init__ (OnePath p) framework kv self0
     = __init__ (PathList [p]) framework kv self0)
  /\ new (OnePath p) framework kv = new (PathList [p]) framework kv.
Proof.
  split; [intros self0|]; reflexivity.
Qed.

(** C9. After a successful construction, [keys()] lists every tensor name
    of every loaded file exactly once: the list has no repetition, a name
    is in it exactly when some loaded file has it, and each of its names
    occurs once. *)
Theorem keys_each_name_once {st : Safetensors}
  (framework : string) (kv : Options) (arg : file_paths_arg)
  (self : SafetensorsWrapper) :
  new arg framework kv = Ok self ->
  NoDup (keys self)
  /\ (forall name,
        In name (keys self) <->
        exists p file,
          In p (paths_of arg) /\ safe_open p framework kv = Ok file
          /\ In name (handle_keys file))
  /\ (forall name,
        In name (keys self) -> count_occ string_dec (keys self) name = 1).
Proof.
  intros H. destruct (new_inv framework kv arg self H) as (files & Hop & Hnd & ->).
  unfold keys. simpl. rewrite keys_registry_of.
  split; [exact Hnd|]. split.
  - intros name. unfold all_keys. rewrite in_flat_map. split.
    + intros (file & Hf & Hn).
      destruct (opened_path_of_file framework kv _ _ Hop file Hf) as (p & Hp & Ho).
      now exists p, file.
    + intros (p & file & Hp & Ho & Hn).
      destruct (opened_file_of_path framework kv _ _ Hop p Hp) as (file' & Hf & Ho').
      rewrite Ho in Ho'. injection Ho' as <-. now exists file.
  - now apply NoDup_count_occ'.
Qed.

Lemma keys_each_name_once_witness :
  exists self,
    @new Files.package0
      (PathList ["model/file1.safetensors"; "model/file2.safetensors"]) "pt" tt
    = Ok self
    /\ @keys Files.package0 self = ["w1"; "w2"; "b2"]
    /\ NoDup (@keys Files.package0 self).
Proof.
  eexists. split; [reflexivity|]. split; [reflexivity|].
  apply (@keys_each_name_once Files.package0 "pt" tt
           (PathList ["model/file1.safetensors"; "model/file2.safetensors"])).
  reflexivity.
Defined.

(** C10. The string representation shows the length of the tensor registry
    in both places, as the number of tensors and as the number of files; it
    does not depend on the list of loaded paths. *)
Theorem repr_shows_registry_length_twice {st : Safetensors}
  (self : SafetensorsWrapper) :
  __repr__ self
  = ("<SafetensorsWrapper: " ++ str_of_nat (Dict.len (_tensors self))
      ++ " tensors from " ++ str_of_nat (Dict.len (_tensors self))
      ++ " files>")%string
  /\ (forall ps, __repr__ (set_file_paths self ps) = __repr__ self).
Proof.
  split; [|intros ps]; reflexivity.
Qed.

(** C7. The length of an aggregator built from one valid file is the
    number of keys of the parsed header other than [__metadata__]; built
    from two files whose tensor names are disjoint, it is the sum of the two
    counts.  A file is valid when it opens, its header parses to an object,
    and the handle lists the tensor names of that header. *)
Theorem len_counts_tensors {rt : Runtime} {st : Safetensors}
  (fs : filesystem) (framework : string) (kv : Options)
  (p1 p2 : string) (file1 file2 : Handle) (header1 header2 : dict json) :
  safe_open p1 framework kv = Ok file1 ->
  safe_open p2 framework kv = Ok file2 ->
  read_safetensors_json fs p1 = Ok (JDict header1) ->
  read_safetensors_json fs p2 = Ok (JDict header2) ->
  NoDup (Dict.keys header1) ->
  NoDup (Dict.keys header2) ->
  Permutation (handle_keys file1) (tensor_names header1) ->
  Permutation (handle_keys file2) (tensor_names header2) ->
  (exists self1,
     new (OnePath p1) framework kv = Ok self1
     /\ __len__ self1 = List.length (tensor_names header1))
  /\ ((forall name,
         In name (tensor_names header1) -> ~ In name (tensor_names header2)) ->
      exists self self1 self2,
        new (PathList [p1; p2]) framework kv = Ok self
        /\ new (PathList [p1]) framework kv = Ok self1
        /\ new (PathList [p2]) framework kv = Ok self2
        /\ __len__ self = __len__ self1 + __len__ self2
        /\ __len__ self
           = List.length (tensor_names header1)
             + List.length (tensor_names header2)).
Proof.
  intros Ho1 Ho2 _ _ Hd1 Hd2 Hp1 Hp2.
  assert (Hn1 : NoDup (handle_keys file1)).
  { apply (Permutation_NoDup (Permutation_sym Hp1)), nodup_tensor_names, Hd1. }
  assert (Hn2 : NoDup (handle_keys file2)).
  { apply (Permutation_NoDup (Permutation_sym Hp2)), nodup_tensor_names, Hd2. }
  assert (O1 : opened framework kv [p1] [file1])
    by (constructor; [exact Ho1 | constructor]).
  assert (O2 : opened framework kv [p2] [file2])
    by (constructor; [exact Ho2 | constructor]).
  assert (A1 : all_keys [file1] = handle_keys file1)
    by (unfold all_keys; simpl; apply app_nil_r).
  assert (A2 : all_keys [file2] = handle_keys file2)
    by (unfold all_keys; simpl; apply app_nil_r).
  assert (E1 : new (PathList [p1]) framework kv
               = Ok {| _file_paths := [p1]; _tensors := registry_of [file1] |}).
  { apply (new_ok framework kv (PathList [p1]) [file1] O1). now rewrite A1. }
  assert (E2 : new (PathList [p2]) framework kv
               = Ok {| _file_paths := [p2]; _tensors := registry_of [file2] |}).
  { apply (new_ok framework kv (PathList [p2]) [file2] O2). now rewrite A2. }
  split.
  - eexists. split; [exact E1|]. unfold __len__. cbn [_tensors].
    rewrite len_registry_of, A1. now apply Permutation_length.
  - intros Hdisj.
    assert (O : opened framework kv [p1; p2] [file1; file2])
      by (constructor; [exact Ho1 | exact O2]).
    assert (A : all_keys [file1; file2] = handle_keys file1 ++ handle_keys file2)
      by (unfold all_keys; simpl; now rewrite app_nil_r).
    do 3 eexists. split.
    { apply (new_ok framework kv (PathList [p1; p2]) [file1; file2] O).
      rewrite A. apply nodup_app_intro; [exact Hn1 | exact Hn2 |].
      intros a Ha2 Ha1. apply (Hdisj a).
      - exact (Permutation_in a Hp1 Ha1).
      - exact (Permutation_in a Hp2 Ha2). }
    split; [exact E1|]. split; [exact E2|].
    unfold __len__. cbn [_tensors].
    rewrite !len_registry_of, A, A1, A2, length_app.
    split; [reflexivity|].
    now rewrite (Permutation_length Hp1), (Permutation_length Hp2).
Qed.

Lemma len_counts_tensors_witness :
  (exists self1,
     @new Files.package0 (OnePath "model/file1.safetensors") "pt" tt = Ok self1
     /\ @__len__ Files.package0 self1 = 1)
  /\ (exists self,
        @new Files.package0
          (PathList ["model/file1.safetensors"; "model/file2.safetensors"])
          "pt" tt = Ok self
        /\ @__len__ Files.package0 self = 1 + 2).
Proof.
  destruct (@len_counts_tensors Files.little Files.package0 Files.fs0 "pt" tt
              "model/file1.safetensors" "model/file2.safetensors"
              (Files.handle_of "model/file1.safetensors" ["w1"])
              (Files.handle_of "model/file2.safetensors" ["w2"; "b2"])
              [("__metadata__", JDict [("format", JStr "pt")]);
               ("w1", JDict [("dtype", JStr "F32"); ("shape", JList [JInt 1]);
                             ("data_offsets", JList [JInt 0; JInt 4])])]
              [("w2", JDict [("dtype", JStr "F32"); ("shape", JList [JInt 1]);
                             ("data_offsets", JList [JInt 0; JInt 4])]);
               ("b2", JDict [("dtype", JStr "U8"); ("shape", JList [JInt 2]);
                             ("data_offsets", JList [JInt 4; JInt 6])])])
    as [(self1 & E1 & L1) Hsum].
  - reflexivity.
  - reflexivity.
  - reflexivity.
  - reflexivity.
  - simpl. repeat constructor; simpl; intuition discriminate.
  - simpl. repeat constructor; simpl; intuition discriminate.
  - apply Permutation_refl.
  - apply Permutation_refl.
  - split.
    + exists self1. split; [exact E1 | exact L1].
    + destruct Hsum as (self & s1 & s2 & E & _ & _ & _ & L).
      * simpl. intros name [<-|[]] [H|[H|[]]]; discriminate.
      * exists self. split; [exact E | exact L].
Defined.

(** C2. Over files whose headers parse to objects with integer
    [data_offsets] in every tensor entry, [get_index] returns, and its
    [total_size] is the sum, over every loaded file and every entry of its
    header whose key is not [__metadata__], of
    [data_offsets[1] - data_offsets[0]]. *)
Theorem get_index_total_size {rt : Runtime} {st : Safetensors}
  (fs : filesystem) (self : SafetensorsWrapper) (headers : list (dict json)) :
  parsed fs (_file_paths self) headers ->
  Forall well_formed headers ->
  exists idx,
    get_index self fs = Ok idx
    /\ total_size idx = JInt (spec_total_size headers).
Proof.
  intros Hp Hwf. unfold get_index.
  destruct (index_files_total fs _ _ Dict.empty 0%Z Hp Hwf) as (wm & E).
  rewrite E. cbn [bind]. eexists. split; reflexivity.
Qed.

Lemma get_index_total_size_witness :
  exists self idx,
    @new Files.package0
      (PathList ["model/file1.safetensors"; "model/file2.safetensors"]) "pt" tt
    = Ok self
    /\ @get_index Files.little Files.package0 self Files.fs0 = Ok idx
    /\ total_size idx = JInt 10.
Proof.
  exists (Files.built
            (PathList ["model/file1.safetensors"; "model/file2.safetensors"])).
  destruct (@get_index_total_size Files.little Files.package0 Files.fs0
              (Files.built
                 (PathList ["model/file1.safetensors";
                            "model/file2.safetensors"]))
              [[("__metadata__", JDict [("format", JStr "pt")]);
                ("w1", JDict [("dtype", JStr "F32"); ("shape", JList [JInt 1]);
                              ("data_offsets", JList [JInt 0; JInt 4])])];
               [("w2", JDict [("dtype", JStr "F32"); ("shape", JList [JInt 1]);
                              ("data_offsets", JList [JInt 0; JInt 4])]);
                ("b2", JDict [("dtype", JStr "U8"); ("shape", JList [JInt 2]);
                              ("data_offsets", JList [JInt 4; JInt 6])])]])
    as (idx & E & T).
  - repeat constructor.
  - repeat constructor; discriminate.
  - exists idx. split; [reflexivity|]. split; [exact E | exact T].
Defined.

(** C3. Over files whose headers parse to objects with integer
    [data_offsets], [get_index] returns whether or not a name is declared by
    several files, and in its [weight_map] every tensor name of a header on
    disk maps to the basename of the last loaded file, in load order, whose
    header declares it: the file itself when no later file declares the
    name, so that of two files declaring a name the later one wins.  A name
    that no header declares has no entry.  The basename is the path without
    its directory part. *)
Theorem get_index_weight_map {rt : Runtime} {st : Safetensors}
  (fs : filesystem) (self : SafetensorsWrapper) (headers : list (dict json)) :
  parsed fs (_file_paths self) headers ->
  Forall well_formed headers ->
  exists idx,
    get_index self fs = Ok idx
    /\ (forall ps1 p ps2 name,
          _file_paths self = ps1 ++ p :: ps2 ->
          In name (names_on_disk fs p) ->
          (forall q, In q ps2 -> ~ In name (names_on_disk fs q)) ->
          Dict.get (weight_map idx) name = Some (basename p))
    /\ (forall name,
          (forall q, In q (_file_paths self) -> ~ In name (names_on_disk fs q)) ->
          Dict.get (weight_map idx) name = None)
    /\ (forall dir name,
          is_component name = true ->
          basename (dir ++ String "/"%char name)%string = name).
Proof.
  intros Hp Hwf.
  destruct (index_files_total fs _ _ Dict.empty 0%Z Hp Hwf) as (wm & Hfold).
  assert (E : get_index self fs
              = Ok {| total_size := JInt (0 + spec_total_size headers);
                      weight_map := wm |})
    by (unfold get_index; now rewrite Hfold).
  eexists. split; [exact E|].
  apply get_index_inv in E. cbn [weight_map total_size] in E |- *.
  split; [|split].
  - intros ps1 p ps2 name Hps Hin Hlater. rewrite Hps in E.
    exact (index_files_last fs ps1 p ps2 name _ _ _ _ E Hin Hlater).
  - intros name Hnone.
    now rewrite (index_files_keep fs name _ _ _ _ _ E Hnone).
  - exact basename_strips_directory.
Qed.

Lemma get_index_weight_map_witness :
  exists idx,
    @get_index Files.little Files.package0
      (Files.built
         (PathList ["model/file1.safetensors"; "model/file2.safetensors"]))
      Files.fs1 = Ok idx
    /\ Dict.get (weight_map idx) "w1" = Some "file1.safetensors"
    /\ Dict.get (weight_map idx) "w2" = Some "file2.safetensors"
    /\ Dict.get (weight_map idx) "w3" = None.
Proof.
  destruct (@get_index_weight_map Files.little Files.package0 Files.fs1
              (Files.built
                 (PathList ["model/file1.safetensors";
                            "model/file2.safetensors"]))
              [[("w1", JDict [("dtype", JStr "F32"); ("shape", JList [JInt 1]);
                              ("data_offsets", JList [JInt 0; JInt 4])]);
                ("w2", JDict [("dtype", JStr "F32"); ("shape", JList [JInt 1]);
                              ("data_offsets", JList [JInt 4; JInt 8])])];
               [("w2", JDict [("dtype", JStr "F32"); ("shape", JList [JInt 1]);
                              ("data_offsets", JList [JInt 0; JInt 4])]);
                ("b2", JDict [("dtype", JStr "U8"); ("shape", JList [JInt 2]);
                              ("data_offsets", JList [JInt 4; JInt 6])])]])
    as (idx & E & Hlast & Hnone & _).
  - repeat constructor.
  - repeat constructor; discriminate.
  - exists idx. split; [exact E|]. split; [|split].
    + apply (Hlast [] "model/file1.safetensors" ["model/file2.safetensors"]).
      * reflexivity.
      * vm_compute. now left.
      * intros q [<-|[]]. vm_compute. intuition discriminate.
    + apply (Hlast ["model/file1.safetensors"] "model/file2.safetensors" []).
      * reflexivity.
      * vm_compute. now left.
      * intros q [].
    + apply Hnone. intros q [<-|[<-|[]]]; vm_compute; intuition discriminate.
Defined.

(** C4, as the code has it.  With fewer than 8 bytes in the file the parser
    raises, [struct.unpack] refusing the short buffer.  With 8 bytes or more
    and a body shorter than the declared size [N] (a size [read] accepts
    and can allocate), there is no check of the length read: the outcome is
    that of decoding and parsing the bytes that follow the prefix, an error
    only when these are not UTF-8 or not JSON text. *)
Theorem truncated_header {rt : Runtime} (fs : filesystem)
  (file_path : string) (content : list byte) :
  fs file_path = Some content ->
  (List.length content < 8 ->
   read_safetensors_json fs file_path = Raise StructError)
  /\ (forall prefix body N,
        content = prefix ++ body ->
        List.length prefix = 8 ->
        unpack_Q byteorder prefix = Ok N ->
        (N <= maxsize word)%Z ->
        (N <= alloc_limit)%Z ->
        (Z.of_nat (List.length body) < N)%Z ->
        read_safetensors_json fs file_path
        = bind (decode_utf8 body) json_loads).
Proof.
  intros Hfile. unfold read_safetensors_json, open_rb. rewrite Hfile.
  cbn [bind]. split.
  - intros Hlen. unfold read_header_bytes.
    now rewrite read_header_size_short.
  - intros prefix body N -> Hp HN Hmax Hmem Hshort.
    rewrite (read_header_bytes_short prefix body N Hp HN) by lia.
    reflexivity.
Qed.

Lemma truncated_header_witness :
  @read_safetensors_json Files.little Files.fs0 "cut.bin" = Raise StructError
  /\ @read_safetensors_json Files.little Files.fs0 "short.safetensors"
     = bind (Reference.decode (list_byte_of_string "{}")) Reference.loads.
Proof.
  split.
  - apply (@truncated_header Files.little Files.fs0 "cut.bin" [x02; x00; x00]).
    + reflexivity.
    + simpl. lia.
  - apply (@truncated_header Files.little Files.fs0 "short.safetensors"
             (Files.with_prefix 100 "{}") eq_refl)
      with (prefix := Files.le_bytes 8 100) (N := 100%Z).
    + reflexivity.
    + reflexivity.
    + reflexivity.
    + vm_compute. discriminate.
    + vm_compute. discriminate.
    + vm_compute. reflexivity.
Defined.

(** C4, as stated, fails: a file whose prefix declares 100 bytes of header
    and whose body is the 2 bytes of an empty object is parsed without
    error, as the empty header. *)
Lemma short_body_is_accepted :
  exists prefix body,
    Files.fs0 "short.safetensors" = Some (prefix ++ body)
    /\ List.length prefix = 8
    /\ unpack_Q LittleEndian prefix = Ok 100%Z
    /\ List.length body = 2
    /\ @read_safetensors_json Files.little Files.fs0 "short.safetensors"
       = Ok (JDict Dict.empty).
Proof.
  exists (Files.le_bytes 8 100), (list_byte_of_string "{}").
  repeat split.
Qed.

(** C5, on a big-endian host.  The first file is a container whose prefix
    holds 53, the length of its header, in little-endian order.  The program
    unpacks the prefix in the byte order of the host: there it takes
    [53 * 2 ^ 56] for the size and the read of that many bytes fails, while
    a little-endian host finds 53 and the header.  The second file has the
    prefix of 2 in big-endian order, which is [2 * 2 ^ 56] in little-endian
    order: the big-endian host reads a header of 2 bytes from it. *)
Theorem header_size_in_native_byte_order :
  let file := Files.container Files.header_w (Files.zeros 1) in
  let swapped := rev (Files.le_bytes 8 2) in
  (Files.fs0 "other/w.safetensors" = Some file
   /\ le_to_Z (firstn 8 file) = 53%Z
   /\ @read_header_size Files.big file = Ok ((53 * 2 ^ 56)%Z, skipn 8 file)
   /\ @read_safetensors_json Files.big Files.fs0 "other/w.safetensors"
      = Raise MemoryError
   /\ @read_header_size Files.little file = Ok (53%Z, skipn 8 file)
   /\ exists header,
        @read_safetensors_json Files.little Files.fs0 "other/w.safetensors"
        = Ok (JDict header)
        /\ tensor_names header = ["w"])
  /\ (Files.fs0 "swapped.safetensors"
      = Some (swapped ++ list_byte_of_string "{}")
      /\ le_to_Z swapped = (2 * 2 ^ 56)%Z
      /\ @read_safetensors_json Files.big Files.fs0 "swapped.safetensors"
         = Ok (JDict Dict.empty)).
Proof.
  repeat split. eexists. split; reflexivity.
Qed.

(** * The examples of the specification *)

(** One file with one tensor of 8 bytes. *)
Example single_file_example :
  let self := Files.built (OnePath "model/a.safetensors") in
  @new Files.package0 (OnePath "model/a.safetensors") "pt" tt = Ok self
  /\ keys self = ["a"]
  /\ @get_index Files.little Files.package0 self Files.fs0
     = Ok {| total_size := JInt 8;
             weight_map := [("a", "a.safetensors")] |}.
Proof. repeat split. Qed.

(** Two files loaded, three tensors: the representation counts three
    files. *)
Example repr_example :
  let self :=
    Files.built
      (PathList ["model/file1.safetensors"; "model/file2.safetensors"]) in
  _file_paths self = ["model/file1.safetensors"; "model/file2.safetensors"]
  /\ __repr__ self = "<SafetensorsWrapper: 3 tensors from 3 files>".
Proof. repeat split. Qed.

(** After [file1] was rewritten to declare [w2] too, the index is built
    without complaint and [file2], loaded later, owns [w2]. *)
Example later_file_wins_example :
  let self :=
    Files.built
      (PathList ["model/file1.safetensors"; "model/file2.safetensors"]) in
  @get_index Files.little Files.package0 self Files.fs1
  = Ok {| total_size := JInt 14;
          weight_map := [("w1", "file1.safetensors");
                         ("w2", "file2.safetensors");
                         ("b2", "file2.safetensors")] |}.
Proof. reflexivity. Qed.

(** A tensor entry without [data_offsets] loads but cannot be indexed. *)
Example missing_offsets_example :
  let self := Files.built (OnePath "bare.safetensors") in
  keys self = ["x"]
  /\ @get_index Files.little Files.package0 self Files.fs0
     = Raise (KeyError "data_offsets").
Proof. repeat split. Qed.

(** * Further properties of the program *)

(** ** Lookups in the registry *)

Lemma get_app (V : Type) (d1 d2 : dict V) (k : string) :
  Dict.get (d1 ++ d2) k
  = match Dict.get d1 k with
    | Some v => Some v
    | None => Dict.get d2 k
    end.
Proof.
  induction d1 as [|[k' v'] d1 IH]; simpl; [reflexivity|].
  now destruct (String.eqb k k').
Qed.

Lemma get_tagged_in (V : Type) (v : V) (ks : list string) (k : string) :
  In k ks -> Dict.get (map (fun k => (k, v)) ks) k = Some v.
Proof.
  induction ks as [|k' ks IH]; simpl; intros H; [destruct H|].
  destruct (String.eqb_spec k k') as [_|Hne]; [reflexivity|].
  destruct H as [->|H]; [contradiction | now apply IH].
Qed.

Lemma get_tagged_notin (V : Type) (v : V) (ks : list string) (k : string) :
  ~ In k ks -> Dict.get (map (fun k => (k, v)) ks) k = None.
Proof.
  intros H. apply get_none_iff. now rewrite keys_tagged.
Qed.

Section Registry.

Context {st : Safetensors}.

(** In a registry without repeated names, a name belongs to the file that
    lists it. *)
Lemma get_registry_owner (files : list Handle) (file : Handle) (k : string) :
  NoDup (all_keys files) ->
  In file files ->
  In k (handle_keys file) ->
  Dict.get (registry_of files) k = Some file.
Proof.
  induction files as [|f files IH]; intros Hnd Hf Hk; [destruct Hf|].
  unfold registry_of, all_keys in *. simpl in *.
  destruct (nodup_app_inv _ _ _ Hnd) as (_ & Hnd' & Hdisj).
  rewrite get_app. unfold entries_of at 1.
  destruct Hf as [->|Hf].
  - now rewrite get_tagged_in.
  - rewrite get_tagged_notin; [now apply IH|].
    intros Hin. apply (Hdisj k); [|exact Hin].
    apply in_flat_map. now exists file.
Qed.

End Registry.

(** X1. For every aggregator, the membership test, the iteration and the
    length agree: a name is [in] the aggregator exactly when iterating
    yields it, and [len] is the number of names the iteration yields. *)
Theorem membership_iteration_length_agree {st : Safetensors}
  (self : SafetensorsWrapper) :
  (forall name, __contains__ self name = true <-> In name (__iter__ self))
  /\ (forall name, __contains__ self name = false <-> ~ In name (__iter__ self))
  /\ __len__ self = List.length (__iter__ self).
Proof.
  unfold __contains__, __iter__, keys, __len__. split; [|split].
  - intros name. apply contains_true_iff.
  - intros name. apply contains_false_iff.
  - unfold Dict.len, Dict.keys. now rewrite length_map.
Qed.

(** X2. After a successful construction, indexing by a tensor name
    dispatches to the file that name was loaded from: for a loaded path [p]
    whose handle lists [name], [self[name]] is what that handle's
    [get_tensor(name)] gives, its tensor or its exception. *)
Theorem getitem_dispatches_to_owner {st : Safetensors}
  (framework : string) (kv : Options) (arg : file_paths_arg)
  (self : SafetensorsWrapper) (p : string) (file : Handle) (name : string) :
  new arg framework kv = Ok self ->
  In p (paths_of arg) ->
  safe_open p framework kv = Ok file ->
  In name (handle_keys file) ->
  __getitem__ self name = get_tensor file name.
Proof.
  intros Hnew Hp Hopen Hname.
  destruct (new_inv framework kv arg self Hnew) as (files & Hop & Hnd & ->).
  destruct (opened_file_of_path framework kv _ _ Hop p Hp) as (file' & Hf & Ho).
  rewrite Hopen in Ho. injection Ho as <-.
  pose proof (get_registry_owner files file name Hnd Hf Hname) as Hget.
  unfold __getitem__, Dict.contains. cbn [_tensors]. now rewrite Hget.
Qed.

Lemma getitem_dispatches_to_owner_witness :
  @__getitem__ Files.package0
    (Files.built
       (PathList ["model/file1.safetensors"; "model/file2.safetensors"]))
    "b2"
  = Ok ("model/file2.safetensors", "b2").
Proof.
  apply (@getitem_dispatches_to_owner Files.package0 "pt" tt
           (PathList ["model/file1.safetensors"; "model/file2.safetensors"])
           _ "model/file2.safetensors"
           (Files.handle_of "model/file2.safetensors" ["w2"; "b2"]) "b2").
  - reflexivity.
  - simpl. tauto.
  - reflexivity.
  - simpl. tauto.
Defined.



(** ** Loading into an existing aggregator *)

(** X4. [_load_file] is not all-or-nothing.  When the file opens and its
    names [pre] are new but the next name [k] is taken, the call raises the
    collision error and leaves the object with the names of [pre] merged
    into the registry, owned by the new file, while the file's path is not
    in [_file_paths]. *)
Theorem load_file_collision_keeps_partial_merge {st : Safetensors}
  (framework : string) (kv : Options) (self : SafetensorsWrapper)
  (p : string) (file : Handle) (pre : list string) (k : string)
  (post : list string) :
  safe_open p framework kv = Ok file ->
  handle_keys file = pre ++ k :: post ->
  NoDup pre ->
  (forall k', In k' pre -> ~ In k' (keys self)) ->
  In k (keys self ++ pre) ->
  exists self',
    _load_file p framework kv self
    = (Raise (ValueError (collision_message k)), self')
    /\ _file_paths self' = _file_paths self
    /\ keys self' = keys self ++ pre
    /\ (forall k', In k' pre -> Dict.get (_tensors self') k' = Some file).
Proof.
  intros Hopen Hkeys Hnd Hfresh Hin. unfold keys in *.
  eexists. split.
  - unfold _load_file, mbind, lift.
    rewrite Hopen, Hkeys, merge_keys_collision by assumption. reflexivity.
  - cbn [set_tensors _file_paths _tensors]. split; [reflexivity|]. split.
    + now rewrite keys_app, keys_tagged.
    + intros k' Hk'. rewrite get_app.
      destruct (Dict.get (_tensors self) k') eqn:E.
      * exfalso. apply (Hfresh k' Hk'). apply contains_true_iff.
        unfold Dict.contains. now rewrite E.
      * now apply get_tagged_in.
Qed.

Lemma load_file_collision_keeps_partial_merge_witness :
  let self : @SafetensorsWrapper Files.package0 :=
    {| _file_paths := ["old.safetensors"];
       _tensors :=
         [("b2", Files.handle_of "old.safetensors" ["b2"]
                 : @Handle Files.package0)] |} in
  exists self',
    @_load_file Files.package0 "model/file2.safetensors" "pt" tt self
    = (Raise (ValueError (collision_message "b2")), self')
    /\ _file_paths self' = ["old.safetensors"]
    /\ keys self' = ["b2"; "w2"].
Proof.
  intros self.
  destruct (@load_file_collision_keeps_partial_merge Files.package0 "pt" tt
              self "model/file2.safetensors"
              (Files.handle_of "model/file2.safetensors" ["w2"; "b2"])
              ["w2"] "b2" [])
    as (self' & E & Hp & Hk & _).
  - reflexivity.
  - reflexivity.
  - repeat constructor. intros [].
  - simpl. intros k' [<-|[]] [H|[]]. discriminate.
  - simpl. tauto.
  - exists self'. split; [exact E|]. split; [exact Hp | exact Hk].
Defined.

(** X5. Loading one more file into an aggregator whose names are distinct:
    the call returns exactly when the file opens and its names are distinct
    and new.  Then the path is appended, the new names follow the old ones
    in [keys()] and belong to the new file, every old name keeps its owner,
    and the length grows by the number of new names. *)
Theorem load_file_extends_registry {st : Safetensors}
  (framework : string) (kv : Options) (self : SafetensorsWrapper)
  (p : string) :
  NoDup (keys self) ->
  (forall self',
     _load_file p framework kv self = (Ok tt, self') ->
     exists file,
       safe_open p framework kv = Ok file
       /\ NoDup (handle_keys file)
       /\ (forall k, In k (handle_keys file) -> ~ In k (keys self)))
  /\ (forall file,
        safe_open p framework kv = Ok file ->
        NoDup (handle_keys file) ->
        (forall k, In k (handle_keys file) -> ~ In k (keys self)) ->
        exists self',
          _load_file p framework kv self = (Ok tt, self')
          /\ _file_paths self' = _file_paths self ++ [p]
          /\ keys self' = keys self ++ handle_keys file
          /\ NoDup (keys self')
          /\ (forall k, In k (keys self) ->
                Dict.get (_tensors self') k = Dict.get (_tensors self) k)
          /\ (forall k, In k (handle_keys file) ->
                Dict.get (_tensors self') k = Some file)
          /\ __len__ self' = __len__ self + List.length (handle_keys file)).
Proof.
  intros Hself. unfold keys in *. split.
  - intros self' H. exact (load_file_inv framework kv p self self' H).
  - intros file Hopen Hnd Hfresh. eexists. split.
    + exact (load_file_ok framework kv p file self Hopen Hnd Hfresh).
    + cbn [_file_paths _tensors]. unfold entries_of.
      split; [reflexivity|]. split; [now rewrite keys_app, keys_tagged|].
      split; [|split; [|split]].
      * rewrite keys_app, keys_tagged. now apply nodup_app_intro.
      * intros k Hk. rewrite get_app.
        destruct (Dict.get (_tensors self) k) eqn:E; [reflexivity|].
        apply get_none_iff in E. contradiction.
      * intros k Hk. rewrite get_app.
        destruct (Dict.get (_tensors self) k) eqn:E.
        -- exfalso. apply (Hfresh k Hk). apply contains_true_iff.
           unfold Dict.contains. now rewrite E.
        -- now apply get_tagged_in.
      * unfold __len__, Dict.len. cbn [_tensors].
        now rewrite length_app, length_map.
Qed.

Lemma load_file_extends_registry_witness :
  let self :=
    Files.built (PathList ["model/file1.safetensors"]) in
  exists self',
    @_load_file Files.package0 "model/file2.safetensors" "pt" tt self
    = (Ok tt, self')
    /\ _file_paths self'
       = ["model/file1.safetensors"; "model/file2.safetensors"]
    /\ keys self' = ["w1"; "w2"; "b2"]
    /\ __len__ self' = 1 + 2.
Proof.
  intros self.
  destruct (@load_file_extends_registry Files.package0 "pt" tt self
              "model/file2.safetensors") as [_ H].
  - repeat constructor. intros [].
  - destruct (H (Files.handle_of "model/file2.safetensors" ["w2"; "b2"]))
      as (self' & E & Hp & Hk & _ & _ & _ & Hl).
    + reflexivity.
    + repeat constructor; simpl; intuition discriminate.
    + simpl. intros k [<-|[<-|[]]] [H'|[]]; discriminate.
    + exists self'. repeat split; assumption.
Defined.

(** ** More on construction *)

(** X6. A path given twice makes the construction fail as soon as its
    file has a tensor: when the paths before the second occurrence load
    without collision, the constructor raises the collision error naming
    the first tensor name of that file. *)
Theorem repeated_path_collides {st : Safetensors}
  (framework : string) (kv : Options) (arg : file_paths_arg)
  (ps1 : list string) (files1 : list Handle) (p : string) (file : Handle)
  (k : string) (rest : list string) (ps2 : list string) :
  paths_of arg = ps1 ++ p :: ps2 ->
  In p ps1 ->
  opened framework kv ps1 files1 ->
  NoDup (all_keys files1) ->
  safe_open p framework kv = Ok file ->
  handle_keys file = k :: rest ->
  new arg framework kv = Raise (ValueError (collision_message k)).
Proof.
  intros Hps Hin Hop Hnd Hopen Hkeys.
  destruct (opened_file_of_path framework kv _ _ Hop p Hin) as (f & Hf & Ho).
  rewrite Hopen in Ho. injection Ho as <-.
  assert (Hk : In k (all_keys files1)).
  { unfold all_keys. apply in_flat_map. exists file. split; [exact Hf|].
    rewrite Hkeys. now left. }
  rewrite new_unfold, Hps.
  pose proof (load_all_collision framework kv ps1 files1 p file [] k rest
                ps2 blank Hop Hopen Hkeys) as H.
  simpl in H. rewrite app_nil_r in H. specialize (H Hnd Hk).
  destruct (load_all framework kv (ps1 ++ p :: ps2) blank) as [[[]|e] s1];
    simpl in H; [discriminate | now injection H as ->].
Qed.

Lemma repeated_path_collides_witness :
  @new Files.package0
    (PathList ["model/a.safetensors"; "empty.safetensors";
               "model/a.safetensors"]) "pt" tt
  = Raise (ValueError (collision_message "a")).
Proof.
  apply (@repeated_path_collides Files.package0 "pt" tt _
           ["model/a.safetensors"; "empty.safetensors"]
           [Files.handle_of "model/a.safetensors" ["a"];
            Files.handle_of "empty.safetensors" []]
           "model/a.safetensors"
           (Files.handle_of "model/a.safetensors" ["a"]) "a" [] []).
  - reflexivity.
  - simpl. tauto.
  - repeat constructor.
  - simpl. repeat constructor. intros [].
  - reflexivity.
  - reflexivity.
Defined.

(** X7. The first path that does not open decides the outcome: when the
    paths before it load without collision and [safe_open] raises [e] on
    it, the constructor raises [e]; the paths after it play no part. *)
Theorem first_unopenable_path_decides {st : Safetensors}
  (framework : string) (kv : Options) (arg : file_paths_arg)
  (ps1 : list string) (files1 : list Handle) (p : string) (e : exn)
  (ps2 : list string) :
  paths_of arg = ps1 ++ p :: ps2 ->
  opened framework kv ps1 files1 ->
  NoDup (all_keys files1) ->
  safe_open p framework kv = Raise e ->
  new arg framework kv = Raise e.
Proof.
  intros Hps Hop Hnd Hopen. rewrite new_unfold, Hps.
  unfold load_all. rewrite for_each_app. fold (load_all framework kv ps1).
  rewrite (load_all_ok framework kv ps1 files1 blank Hop Hnd).
  cbn [for_each]. unfold mbind at 1. unfold _load_file at 1.
  unfold mbind at 1. unfold lift. now rewrite Hopen.
Qed.

Lemma first_unopenable_path_decides_witness :
  @new Files.package0
    (PathList ["model/a.safetensors"; "cut.bin"; "nowhere.safetensors"])
    "pt" tt
  = Raise StructError.
Proof.
  apply (@first_unopenable_path_decides Files.package0 "pt" tt _
           ["model/a.safetensors"]
           [Files.handle_of "model/a.safetensors" ["a"]]
           "cut.bin" StructError ["nowhere.safetensors"]).
  - reflexivity.
  - repeat constructor.
  - simpl. repeat constructor. intros [].
  - reflexivity.
Defined.

(** ** Generators *)

Section Generators.

Context {st : Safetensors}.
Variable X : Type.
Variable fetch : Handle -> string -> result X.
Variable self : SafetensorsWrapper.

Lemma drain_created (fuel : nat) :
  drain (pairs_next fetch self) (S fuel) Created
  = drain (pairs_next fetch self) (S fuel) (Suspended (keys self)).
Proof. reflexivity. Qed.

(** The keys whose values are fetched are yielded in order, and the loop
    goes on with the keys that follow. *)
Lemma drain_fetched (pre : list string) : forall (seen : list (string * X))
  (todo : list string) (fuel : nat),
  Forall2 (fun k kx => fst kx = k /\ fetched_from fetch self k (snd kx)) pre seen ->
  drain (pairs_next fetch self) (List.length pre + fuel)
    (Suspended (pre ++ todo))
  = match drain (pairs_next fetch self) fuel (Suspended todo) with
    | Some (more, e) => Some (seen ++ more, e)
    | None => None
    end.
Proof.
  induction pre as [|k pre IH]; intros seen todo fuel H.
  - inversion H; subst. simpl.
    now destruct (drain (pairs_next fetch self) fuel (Suspended todo))
      as [[more e]|].
  - inversion H as [|? kx ? seen' Hhead Hrest]; subst.
    destruct kx as [k' x]. destruct Hhead as [Hk (file & Hget & Hfetch)].
    simpl in Hk, Hget, Hfetch. subst k'.
    cbn [List.length Nat.add app drain pairs_next].
    rewrite Hget, Hfetch. rewrite (IH seen' todo fuel Hrest).
    now destruct (drain (pairs_next fetch self) fuel (Suspended todo))
      as [[more e]|].
Qed.

Lemma drain_all (seen : list (string * X)) :
  Forall2 (fun k kx => fst kx = k /\ fetched_from fetch self k (snd kx)) (keys self) seen ->
  drain (pairs_next fetch self) (S (List.length (keys self))) Created
  = Some (seen, None).
Proof.
  intros H. rewrite drain_created.
  pose proof (drain_fetched (keys self) seen [] 1 H) as E.
  rewrite app_nil_r, Nat.add_1_r in E. rewrite E. simpl.
  now rewrite app_nil_r.
Qed.

Lemma drain_until (pre : list string) (seen : list (string * X))
  (k : string) (post : list string) (file : Handle) (e : exn) (fuel : nat) :
  keys self = pre ++ k :: post ->
  Forall2 (fun k kx => fst kx = k /\ fetched_from fetch self k (snd kx)) pre seen ->
  Dict.get (_tensors self) k = Some file ->
  fetch file k = Raise e ->
  drain (pairs_next fetch self) (S (List.length pre + fuel)) Created
  = Some (seen, Some e).
Proof.
  intros Hkeys H Hget Hfetch. rewrite drain_created, Hkeys.
  pose proof (drain_fetched pre seen (k :: post) (S fuel) H) as E.
  rewrite Nat.add_succ_r in E. rewrite E.
  cbn [drain pairs_next]. rewrite Hget, Hfetch. now rewrite app_nil_r.
Qed.

End Generators.

(** A name of the registry that [__getitem__] answers for is fetched from
    its owner. *)
Lemma getitem_owner {st : Safetensors} (self : SafetensorsWrapper)
  (k : string) (r : result Tensor) :
  In k (keys self) ->
  __getitem__ self k = r ->
  exists file, Dict.get (_tensors self) k = Some file /\ get_tensor file k = r.
Proof.
  unfold __getitem__, keys. intros Hin H.
  apply contains_true_iff in Hin. rewrite Hin in H.
  unfold Dict.contains in Hin.
  destruct (Dict.get (_tensors self) k) as [file|]; [|discriminate].
  now exists file.
Qed.

(** X8. A loop over [items()] on an aggregator all of whose tensors
    materialise sees one pair per name of [keys()], in that order, each
    with the tensor that indexing by the name gives; so it sees [len]
    pairs. *)
Theorem items_enumerates_registry {st : Safetensors}
  (self : SafetensorsWrapper) (seen : list (string * Tensor)) :
  Forall2 (fun k kt => fst kt = k /\ __getitem__ self k = Ok (snd kt))
    (keys self) seen ->
  drain (items_next self) (S (__len__ self)) Created = Some (seen, None)
  /\ map fst seen = keys self
  /\ List.length seen = __len__ self.
Proof.
  intros H.
  assert (Hlen : __len__ self = List.length (keys self)).
  { unfold __len__, keys, Dict.len, Dict.keys. now rewrite length_map. }
  split; [|split].
  - rewrite Hlen. unfold items_next. apply drain_all.
    assert (Hsub : forall k, In k (keys self) -> In k (keys self)) by auto.
    revert Hsub H. generalize (keys self) at 1 3 4 as ks.
    intros ks Hsub H. induction H as [|k kt ks seen [Hk Hg] _ IH].
    + constructor.
    + constructor.
      * split; [exact Hk|]. apply getitem_owner; [|exact Hg].
        apply Hsub. now left.
      * apply IH. intros k' Hk'. apply Hsub. now right.
  - clear Hlen. induction H as [|k kt ks seen [Hk _] _ IH]; simpl;
      [reflexivity | now rewrite Hk, IH].
  - rewrite Hlen. symmetry. exact (Forall2_length H).
Qed.

Lemma items_enumerates_registry_witness :
  let self :=
    Files.built
      (PathList ["model/file1.safetensors"; "model/file2.safetensors"]) in
  drain (@items_next Files.package0 self) 4 Created
  = Some ([("w1", ("model/file1.safetensors", "w1"));
           ("w2", ("model/file2.safetensors", "w2"));
           ("b2", ("model/file2.safetensors", "b2"))], None).
Proof.
  intros self.
  apply (@items_enumerates_registry Files.package0 self
           [("w1", ("model/file1.safetensors", "w1"));
            ("w2", ("model/file2.safetensors", "w2"));
            ("b2", ("model/file2.safetensors", "b2"))]).
  repeat constructor.
Defined.

(** X9. A loop over [items()] stops at the first name whose tensor does not
    materialise: it has seen the pairs of the names before it, in order,
    and it ends with the exception that indexing by that name raises; the
    names after it are not visited, and a later [next] on the generator
    gives [StopIteration]. *)
Theorem items_stops_at_first_failure {st : Safetensors}
  (self : SafetensorsWrapper) (pre : list string)
  (seen : list (string * Tensor)) (k : string) (post : list string)
  (e : exn) (fuel : nat) :
  keys self = pre ++ k :: post ->
  Forall2 (fun k kt => fst kt = k /\ __getitem__ self k = Ok (snd kt))
    pre seen ->
  __getitem__ self k = Raise e ->
  drain (items_next self) (S (List.length pre + fuel)) Created
  = Some (seen, Some e)
  /\ (forall g kt, items_next self g = (Throw e, kt) ->
       items_next self kt = (StopIteration, Finished)).
Proof.
  intros Hkeys H Hk. split.
  - assert (Hin : forall k', In k' (pre ++ k :: post) -> In k' (keys self))
      by (now rewrite Hkeys).
    destruct (getitem_owner self k (Raise e)) as (file & Hget & Hfetch);
      [apply Hin, in_or_app; right; now left | exact Hk |].
    unfold items_next.
    apply (drain_until Tensor get_tensor self pre seen k post file e fuel
             Hkeys); [|exact Hget | exact Hfetch].
    assert (Hpre : forall k', In k' pre -> In k' (keys self))
      by (intros k' Hk'; apply Hin, in_or_app; now left).
    clear Hkeys Hin Hk Hget Hfetch.
    induction H as [|k' kt ks seen [Hk' Hg] _ IH].
    + constructor.
    + constructor.
      * split; [exact Hk'|]. apply getitem_owner; [|exact Hg].
        apply Hpre. now left.
      * apply IH. intros k'' Hk''. apply Hpre. now right.
  - intros g kt Hstep.
    assert (kt = Finished).
    { unfold items_next, pairs_next in Hstep.
      destruct g as [|rest|]; [| |discriminate].
      - destruct (keys self) as [|k0 r]; [discriminate|].
        destruct (Dict.get (_tensors self) k0) as [file|];
          [destruct (get_tensor file k0)|]; now inversion Hstep.
      - destruct rest as [|k0 r]; [discriminate|].
        destruct (Dict.get (_tensors self) k0) as [file|];
          [destruct (get_tensor file k0)|]; now inversion Hstep. }
    subst kt. reflexivity.
Qed.

Lemma items_stops_at_first_failure_witness :
  let stale : @SafetensorsWrapper Files.package0 :=
    {| _file_paths := ["model/a.safetensors"];
       _tensors :=
         [("a", Files.handle_of "model/a.safetensors" ["a"]
                : @Handle Files.package0);
          ("zz", Files.handle_of "model/a.safetensors" ["a"]
                 : @Handle Files.package0);
          ("b", Files.handle_of "model/a.safetensors" ["a"]
                : @Handle Files.package0)] |} in
  drain (@items_next Files.package0 stale) 2 Created
  = Some ([("a", ("model/a.safetensors", "a"))],
          Some (SafetensorError "no such tensor")).
Proof.
  intros stale.
  apply (@items_stops_at_first_failure Files.package0 stale ["a"]
           [("a", ("model/a.safetensors", "a"))] "zz" ["b"]
           (SafetensorError "no such tensor") 0).
  - reflexivity.
  - repeat constructor.
  - reflexivity.
Defined.

(** X10. A loop over [slices()] on an aggregator whose files give a slice
    for each of their names sees one pair per name of [keys()], in that
    order, each with the slice the owning file gives. *)
Theorem slices_enumerates_registry {st : Safetensors}
  (self : SafetensorsWrapper) (seen : list (string * Slice)) :
  Forall2
    (fun k ks =>
       fst ks = k
       /\ exists file,
            Dict.get (_tensors self) k = Some file
            /\ get_slice file k = Ok (snd ks))
    (keys self) seen ->
  drain (slices_next self) (S (__len__ self)) Created = Some (seen, None)
  /\ map fst seen = keys self.
Proof.
  intros H. split.
  - assert (Hlen : __len__ self = List.length (keys self)).
    { unfold __len__, keys, Dict.len, Dict.keys. now rewrite length_map. }
    rewrite Hlen. unfold slices_next. now apply drain_all.
  - induction H as [|k kt ks seen [Hk _] _ IH]; simpl;
      [reflexivity | now rewrite Hk, IH].
Qed.

Lemma slices_enumerates_registry_witness :
  let self := Files.built (OnePath "model/file2.safetensors") in
  drain (@slices_next Files.package0 self) 3 Created
  = Some ([("w2", ("model/file2.safetensors", "w2"));
           ("b2", ("model/file2.safetensors", "b2"))], None).
Proof.
  intros self.
  apply (@slices_enumerates_registry Files.package0 self
           [("w2", ("model/file2.safetensors", "w2"));
            ("b2", ("model/file2.safetensors", "b2"))]).
  repeat constructor;
    exists (Files.handle_of "model/file2.safetensors" ["w2"; "b2"]);
    split; reflexivity.
Defined.

(** ** The length prefix *)

Lemma Z_of_byte_range (b : byte) : (0 <= Z_of_byte b < 256)%Z.
Proof.
  unfold Z_of_byte. pose proof (Byte.to_N_bounded b) as H. lia.
Qed.

Lemma Z_of_byte_of_Z (n : Z) : Z_of_byte (Files.byte_of_Z n) = (n mod 256)%Z.
Proof.
  unfold Z_of_byte, Files.byte_of_Z.
  pose proof (Z.mod_pos_bound n 256 ltac:(lia)) as Hm.
  destruct (Byte.of_N (Z.to_N (n mod 256))) as [b|] eqn:E.
  - apply Byte.to_of_N in E. rewrite E. lia.
  - apply Byte.of_N_None_iff in E. lia.
Qed.

Lemma length_le_bytes (k : nat) : forall n,
  List.length (Files.le_bytes k n) = k.
Proof.
  induction k as [|k IH]; intros n; simpl; [reflexivity | now rewrite IH].
Qed.

Lemma le_to_Z_le_bytes (k : nat) : forall n,
  (0 <= n < 256 ^ Z.of_nat k)%Z ->
  le_to_Z (Files.le_bytes k n) = n.
Proof.
  induction k as [|k IH]; intros n Hn.
  - simpl in *. lia.
  - cbn [Files.le_bytes le_to_Z]. rewrite Z_of_byte_of_Z, IH.
    + pose proof (Z.div_mod n 256 ltac:(lia)). lia.
    + rewrite Nat2Z.inj_succ, Z.pow_succ_r in Hn by lia.
      split; [apply Z.div_pos; lia|].
      apply Z.div_lt_upper_bound; lia.
Qed.

Lemma le_to_Z_bound (bs : list byte) :
  (0 <= le_to_Z bs < 256 ^ Z.of_nat (List.length bs))%Z.
Proof.
  induction bs as [|b bs IH].
  - simpl. lia.
  - cbn [le_to_Z List.length]. rewrite Nat2Z.inj_succ, Z.pow_succ_r by lia.
    pose proof (Z_of_byte_range b). lia.
Qed.

Lemma unpack_Q_bound (order : endianness) (bs : list byte) (n : Z) :
  unpack_Q order bs = Ok n ->
  List.length bs = 8 /\ (0 <= n < 2 ^ 64)%Z.
Proof.
  unfold unpack_Q. destruct (Nat.eqb_spec (List.length bs) 8) as [H|H];
    [|discriminate].
  intros E. injection E as <-. split; [exact H|].
  destruct order; unfold be_to_Z.
  - pose proof (le_to_Z_bound bs) as B. rewrite H in B. exact B.
  - pose proof (le_to_Z_bound (rev bs)) as B.
    rewrite length_rev, H in B. exact B.
Qed.

Lemma unpack_pack_Q (order : endianness) (n : Z) (bs : list byte) :
  pack_Q order n = Ok bs -> unpack_Q order bs = Ok n.
Proof.
  unfold pack_Q.
  destruct ((0 <=? n) && (n <? 2 ^ 64))%Z eqn:Hr; [|discriminate].
  apply andb_true_iff in Hr. destruct Hr as [H0 H1].
  apply Z.leb_le in H0. apply Z.ltb_lt in H1.
  assert (Hn : le_to_Z (Files.le_bytes 8 n) = n)
    by (apply le_to_Z_le_bytes; simpl; lia).
  intros E. unfold unpack_Q, be_to_Z.
  destruct order; injection E as <-.
  - exact (f_equal Ok Hn).
  - exact (f_equal Ok Hn).
Qed.

(** X11. Round trip of the length prefix, in the byte order of the host.
    The length of a header text, when [read] accepts it, is packed on 8
    bytes and [unpack_Q] reads it back.  A file made of that prefix, the
    header text and any tensor data is parsed from the header text alone:
    exactly the declared bytes are read and the data after them has no
    effect. *)
Theorem native_prefix_round_trip {rt : Runtime} (fs : filesystem)
  (file_path : string) (header data : list byte) :
  let N := Z.of_nat (List.length header) in
  (N < 2 ^ 64)%Z ->
  (N <= maxsize word)%Z ->
  (N <= alloc_limit)%Z ->
  exists prefix,
    pack_Q byteorder N = Ok prefix
    /\ unpack_Q byteorder prefix = Ok N
    /\ (fs file_path = Some (prefix ++ header ++ data) ->
        read_safetensors_json fs file_path
        = bind (decode_utf8 header) json_loads).
Proof.
  intros N H64 Hmax Hmem.
  assert (Hpack : exists prefix, pack_Q byteorder N = Ok prefix).
  { unfold pack_Q.
    destruct (Z.leb_spec 0 N) as [_|H]; [|subst N; lia].
    destruct (Z.ltb_spec N (2 ^ 64)) as [_|H]; [|lia].
    eexists. reflexivity. }
  destruct Hpack as (prefix & Hpack). exists prefix.
  pose proof (unpack_pack_Q byteorder N prefix Hpack) as Hunpack.
  split; [exact Hpack|]. split; [exact Hunpack|].
  intros Hfile. unfold read_safetensors_json, open_rb. rewrite Hfile.
  cbn [bind].
  destruct (unpack_Q_bound byteorder prefix N Hunpack) as [Hlen _].
  rewrite (read_header_bytes_exact prefix (header ++ data) N Hlen Hunpack
             Hmax Hmem).
  - cbn [bind]. subst N. rewrite Nat2Z.id, firstn_app, firstn_all.
    rewrite Nat.sub_diag. cbn [firstn]. now rewrite app_nil_r.
  - subst N. rewrite length_app. lia.
Qed.

Lemma native_prefix_round_trip_witness :
  let header := list_byte_of_string (Files.quoted Files.header_w) in
  Files.fs0 "other/w.safetensors"
  = Some (Files.le_bytes 8 53 ++ header ++ Files.zeros 1)
    /\ @read_safetensors_json Files.little Files.fs0 "other/w.safetensors"
       = bind (Reference.decode header) Reference.loads.
Proof.
  intros header. split; [reflexivity|].
  destruct (@native_prefix_round_trip Files.little Files.fs0
              "other/w.safetensors" header (Files.zeros 1))
    as (prefix & Hpack & _ & Hread).
  - vm_compute. reflexivity.
  - vm_compute. discriminate.
  - vm_compute. discriminate.
  - apply Hread. vm_compute in Hpack. injection Hpack as <-. reflexivity.
Defined.



(** ** Errors of get_index *)

Section IndexErrors.

Context {rt : Runtime}.
Variable fs : filesystem.

(** The files before the one that fails are indexed. *)
Lemma index_files_prefix (ps1 : list string) (headers1 : list (dict json))
  (rest : list string) :
  parsed fs ps1 headers1 ->
  Forall well_formed headers1 ->
  exists wm t,
    foldM (index_file fs) (ps1 ++ rest) (Dict.empty, JInt 0)
    = foldM (index_file fs) rest (wm, JInt t).
Proof.
  intros Hp Hwf.
  destruct (index_files_total fs ps1 headers1 Dict.empty 0%Z Hp Hwf)
    as (wm & E).
  exists wm, (0 + spec_total_size headers1)%Z.
  now rewrite foldM_app, E.
Qed.

Lemma index_file_unfold (acc : dict string * json) (p : string) :
  index_file fs acc p
  = bind (read_safetensors_json fs p) (fun metadata =>
    bind (items_of metadata) (fun items =>
    foldM (index_entry (basename p)) items acc)).
Proof. reflexivity. Qed.

End IndexErrors.

(** X13. The first file, in load order, whose header cannot be read decides
    the outcome of [get_index]: when the files before it have well-formed
    headers and reading it raises [e] (the file is gone, cut short, not
    UTF-8, not JSON), [get_index] raises [e]; when its header is JSON but
    not an object, [get_index] raises [AttributeError].  The files after
    it are not read. *)
Theorem get_index_first_unreadable_file_decides
  {rt : Runtime} {st : Safetensors} (fs : filesystem)
  (self : SafetensorsWrapper) (ps1 : list string)
  (headers1 : list (dict json)) (p : string) (ps2 : list string) :
  _file_paths self = ps1 ++ p :: ps2 ->
  parsed fs ps1 headers1 ->
  Forall well_formed headers1 ->
  (forall e,
     read_safetensors_json fs p = Raise e -> get_index self fs = Raise e)
  /\ (forall v,
        read_safetensors_json fs p = Ok v ->
        (forall header, v <> JDict header) ->
        get_index self fs = Raise AttributeError).
Proof.
  intros Hps Hp Hwf. unfold get_index. rewrite Hps.
  destruct (index_files_prefix fs ps1 headers1 (p :: ps2) Hp Hwf)
    as (wm & t & ->).
  rewrite foldM_cons, index_file_unfold. split.
  - intros e Hread. now rewrite Hread.
  - intros v Hread Hv. rewrite Hread. cbn [bind].
    destruct v; try reflexivity. now destruct (Hv d).
Qed.

Lemma get_index_first_unreadable_file_decides_witness :
  let self : @SafetensorsWrapper Files.package0 :=
    {| _file_paths := ["model/a.safetensors"; "removed.safetensors";
                       "model/file1.safetensors"];
       _tensors := Dict.empty |} in
  @get_index Files.little Files.package0 self Files.fs0
  = Raise (OSError "removed.safetensors").
Proof.
  intros self.
  destruct (@get_index_first_unreadable_file_decides Files.little
              Files.package0 Files.fs0 self ["model/a.safetensors"]
              [[("a", JDict [("dtype", JStr "F32"); ("shape", JList [JInt 2]);
                             ("data_offsets", JList [JInt 0; JInt 8])])]]
              "removed.safetensors" ["model/file1.safetensors"])
    as [H _].
  - reflexivity.
  - repeat constructor.
  - repeat constructor. discriminate.
  - apply H. reflexivity.
Defined.

(** X14. The first tensor entry without usable [data_offsets] decides the
    outcome of [get_index]: when the files and the entries before it are
    well-formed and [tensor_info['data_offsets']] raises [e] for it
    ([KeyError] when the key is missing, [TypeError] when the entry is not
    an object), [get_index] raises [e]. *)
Theorem get_index_first_bad_entry_decides
  {rt : Runtime} {st : Safetensors} (fs : filesystem)
  (self : SafetensorsWrapper) (ps1 : list string)
  (headers1 : list (dict json)) (p : string) (ps2 : list string)
  (items1 : dict json) (name : string) (info : json) (items2 : dict json)
  (e : exn) :
  _file_paths self = ps1 ++ p :: ps2 ->
  parsed fs ps1 headers1 ->
  Forall well_formed headers1 ->
  read_safetensors_json fs p = Ok (JDict (items1 ++ (name, info) :: items2)) ->
  well_formed items1 ->
  name <> "__metadata__" ->
  getitem_str info "data_offsets" = Raise e ->
  get_index self fs = Raise e.
Proof.
  intros Hps Hp Hwf Hread Hitems Hname Hinfo. unfold get_index. rewrite Hps.
  destruct (index_files_prefix fs ps1 headers1 (p :: ps2) Hp Hwf)
    as (wm & t & ->).
  rewrite foldM_cons, index_file_unfold, Hread.
  cbn [bind items_of]. unfold Dict.items. rewrite foldM_app.
  rewrite (index_entries_total (basename p) items1 wm t Hitems).
  cbn [bind]. rewrite foldM_cons. unfold index_entry at 1.
  destruct (String.eqb_spec name "__metadata__") as [E|_]; [contradiction|].
  now rewrite Hinfo.
Qed.

Lemma get_index_first_bad_entry_decides_witness :
  @get_index Files.little Files.package0
    (Files.built
       (PathList ["model/a.safetensors"; "bare.safetensors"])) Files.fs0
  = Raise (KeyError "data_offsets").
Proof.
  apply (@get_index_first_bad_entry_decides Files.little Files.package0
           Files.fs0 _ ["model/a.safetensors"]
           [[("a", JDict [("dtype", JStr "F32"); ("shape", JList [JInt 2]);
                          ("data_offsets", JList [JInt 0; JInt 8])])]]
           "bare.safetensors" [] [] "x"
           (JDict [("dtype", JStr "F32"); ("shape", JList [JInt 1])]) []).
  - reflexivity.
  - repeat constructor.
  - repeat constructor. discriminate.
  - reflexivity.
  - constructor.
  - discriminate.
  - reflexivity.
Defined.

(** ** The weight map as a whole *)

Lemma keys_set_iff (V : Type) (d : dict V) (k : string) (v : V) (k' : string) :
  In k' (Dict.keys (Dict.set d k v)) <-> k' = k \/ In k' (Dict.keys d).
Proof.
  induction d as [|[k0 v0] d IH]; simpl.
  - split; [intros [<-|[]]; now left | intros [->|[]]; now left].
  - destruct (String.eqb_spec k k0) as [->|Hne]; simpl.
    + intuition congruence.
    + rewrite IH. intuition congruence.
Qed.

Lemma nodup_keys_set (V : Type) (d : dict V) (k : string) (v : V) :
  NoDup (Dict.keys d) -> NoDup (Dict.keys (Dict.set d k v)).
Proof.
  induction d as [|[k0 v0] d IH]; simpl; intros H.
  - constructor; [intros [] | constructor].
  - inversion H as [|? ? Hk0 Hd]; subst.
    destruct (String.eqb_spec k k0) as [->|Hne]; simpl.
    + now constructor.
    + constructor; [|now apply IH].
      fold (Dict.keys (Dict.set d k v)). rewrite keys_set_iff.
      intros [E|E]; [now apply Hne | now apply Hk0].
Qed.

Lemma keys_assign_all_iff (names : list string) : forall wm file_name name,
  In name (Dict.keys (assign_all wm names file_name))
  <-> In name names \/ In name (Dict.keys wm).
Proof.
  induction names as [|k names IH]; intros wm file_name name.
  - simpl. tauto.
  - rewrite assign_all_cons, IH, keys_set_iff. simpl.
    split; intros H; repeat destruct H as [H|H]; subst; tauto.
Qed.

Lemma nodup_assign_all (names : list string) : forall wm file_name,
  NoDup (Dict.keys wm) -> NoDup (Dict.keys (assign_all wm names file_name)).
Proof.
  induction names as [|k names IH]; intros wm file_name H; [exact H|].
  rewrite assign_all_cons. now apply IH, nodup_keys_set.
Qed.

Lemma get_assign_all_sound (names : list string) (wm : dict string)
  (file_name name v : string) :
  Dict.get (assign_all wm names file_name) name = Some v ->
  (In name names /\ v = file_name) \/ Dict.get wm name = Some v.
Proof.
  intros H. destruct (in_dec string_dec name names) as [Hin|Hn].
  - rewrite (get_assign_all_in names wm file_name name Hin) in H.
    injection H as <-. now left.
  - rewrite (get_assign_all_notin names wm file_name name Hn) in H.
    now right.
Qed.

Section WeightMap.

Context {rt : Runtime}.
Variable fs : filesystem.

(** What the outer loop of [get_index] makes of the weight map. *)
Lemma index_files_sound (ps : list string) : forall wm ts wm' ts',
  foldM (index_file fs) ps (wm, ts) = Ok (wm', ts') ->
  (NoDup (Dict.keys wm) -> NoDup (Dict.keys wm'))
  /\ (forall name,
        In name (Dict.keys wm') <->
        In name (Dict.keys wm)
        \/ exists p, In p ps /\ In name (names_on_disk fs p))
  /\ (forall name v,
        Dict.get wm' name = Some v ->
        Dict.get wm name = Some v
        \/ exists p, In p ps /\ In name (names_on_disk fs p) /\ v = basename p).
Proof.
  induction ps as [|p ps IH]; intros wm ts wm' ts' H.
  - simpl in H. injection H as <- _. split; [auto|]. split.
    + intros name. split; [now left | intros [H|(p & [] & _)]; exact H].
    + intros name v H. now left.
  - rewrite foldM_cons in H.
    destruct (index_file fs (wm, ts) p) as [[wm1 ts1]|] eqn:E;
      cbn [bind] in H; [|discriminate].
    apply index_file_weight_map in E. subst wm1.
    destruct (IH _ _ _ _ H) as (Hnd & Hkeys & Hget). split; [|split].
    + intros Hwm. now apply Hnd, nodup_assign_all.
    + intros name. rewrite Hkeys, keys_assign_all_iff. split.
      * intros [[Hn|Hn]|(q & Hq & Hn)].
        -- right. exists p. split; [now left | exact Hn].
        -- now left.
        -- right. exists q. split; [now right | exact Hn].
      * intros [Hn|(q & [<-|Hq] & Hn)].
        -- left. now right.
        -- left. now left.
        -- right. now exists q.
    + intros name v Hv. destruct (Hget name v Hv) as [Hv'|(q & Hq & Hn & ->)].
      * apply get_assign_all_sound in Hv'.
        destruct Hv' as [[Hn ->]|Hv']; [|now left].
        right. exists p. split; [now left | now split].
      * right. exists q. split; [now right | now split].
Qed.

End WeightMap.

Lemma str_app_nil_r (s : string) : (s ++ "")%string = s.
Proof. induction s as [|c s IH]; simpl; [reflexivity | now rewrite IH]. Qed.

Lemma str_app_assoc (a b c : string) :
  ((a ++ b) ++ c)%string = (a ++ (b ++ c))%string.
Proof. induction a as [|x a IH]; simpl; [reflexivity | now rewrite IH]. Qed.

Lemma is_component_app (a b : string) :
  is_component (a ++ b) = is_component a && is_component b.
Proof.
  induction a as [|x a IH]; simpl; [reflexivity|].
  now rewrite IH, andb_assoc.
Qed.

(** [basename] cuts the path after its last ['/']. *)
Lemma basename_aux_spec (p : string) : forall cur,
  is_component cur = true ->
  is_component (basename_aux cur p) = true
  /\ exists dir,
       (cur ++ p)%string = (dir ++ basename_aux cur p)%string
       /\ (dir = ""%string \/ exists d, dir = (d ++ "/")%string).
Proof.
  induction p as [|c p IH]; intros cur Hcur; simpl.
  - split; [exact Hcur|]. exists ""%string.
    split; [now rewrite str_app_nil_r | now left].
  - destruct (Ascii.eqb_spec c "/"%char) as [->|Hc].
    + destruct (IH ""%string eq_refl) as (Hcomp & dir & Hdir & Hend).
      split; [exact Hcomp|].
      exists ((cur ++ "/") ++ dir)%string. split.
      * rewrite (str_app_assoc (cur ++ "/") dir), <- Hdir.
        cbn [String.append]. now rewrite str_app_assoc.
      * right. destruct Hend as [->|(d & ->)].
        -- exists cur. now rewrite str_app_nil_r.
        -- exists ((cur ++ "/") ++ d)%string. symmetry. apply str_app_assoc.
    + assert (Hcur' : is_component (cur ++ String c "") = true).
      { rewrite is_component_app, Hcur. simpl.
        destruct (Ascii.eqb_spec c "/"%char); [contradiction | reflexivity]. }
      destruct (IH _ Hcur') as (Hcomp & dir & Hdir & Hend).
      split; [exact Hcomp|]. exists dir. split; [|exact Hend].
      rewrite <- Hdir, str_app_assoc. reflexivity.
Qed.

(** X16. The weight map [get_index] returns is sound: its keys are
    distinct; a name is a key exactly when the header on disk of some
    loaded file declares it; and the value of each key is the part after
    the last ['/'] of the path of such a file, so it never holds a directory:
    files of the same name in different directories get the same value. *)
Theorem weight_map_entries_are_sound {rt : Runtime} {st : Safetensors}
  (fs : filesystem) (self : SafetensorsWrapper) (idx : index) :
  get_index self fs = Ok idx ->
  NoDup (Dict.keys (weight_map idx))
  /\ (forall name,
        Dict.contains (weight_map idx) name = true <->
        exists p, In p (_file_paths self) /\ In name (names_on_disk fs p))
  /\ (forall name v,
        Dict.get (weight_map idx) name = Some v ->
        is_component v = true
        /\ exists p dir,
             In p (_file_paths self)
             /\ In name (names_on_disk fs p)
             /\ p = (dir ++ v)%string
             /\ (dir = ""%string \/ exists d, dir = (d ++ "/")%string)).
Proof.
  intros H. apply get_index_inv in H.
  destruct (index_files_sound fs _ _ _ _ _ H) as (Hnd & Hkeys & Hget).
  split; [apply Hnd; constructor|]. split.
  - intros name. rewrite contains_true_iff, Hkeys. simpl. tauto.
  - intros name v Hv.
    destruct (Hget name v Hv) as [Hv'|(p & Hp & Hn & ->)]; [discriminate|].
    destruct (basename_aux_spec p ""%string eq_refl)
      as (Hcomp & dir & Hdir & Hend).
    split; [exact Hcomp|]. exists p, dir. repeat split; assumption.
Qed.

Lemma weight_map_entries_are_sound_witness :
  exists idx,
    @get_index Files.little Files.package0
      (Files.built
         (PathList ["model/file1.safetensors"; "model/file2.safetensors"]))
      Files.fs1 = Ok idx
    /\ Dict.keys (weight_map idx) = ["w1"; "w2"; "b2"]
    /\ NoDup (Dict.keys (weight_map idx)).
Proof.
  eexists. split; [reflexivity|]. split; [reflexivity|].
  apply (@weight_map_entries_are_sound Files.little Files.package0 Files.fs1
           (Files.built
              (PathList ["model/file1.safetensors";
                         "model/file2.safetensors"]))).
  reflexivity.
Defined.

Lemma all_keys_app {st : Safetensors} (files1 files2 : list Handle) :
  all_keys (files1 ++ files2) = all_keys files1 ++ all_keys files2.
Proof. unfold all_keys. apply flat_map_app. Qed.

(** A loaded path splits the list of paths and the list of files alike. *)
Lemma opened_split {st : Safetensors} (framework : string) (kv : Options)
  (ps : list string) (files : list Handle) (p : string) (file : Handle) :
  opened framework kv ps files ->
  In p ps ->
  safe_open p framework kv = Ok file ->
  exists ps1 ps2 files1 files2,
    ps = ps1 ++ p :: ps2
    /\ files = files1 ++ file :: files2
    /\ opened framework kv ps2 files2.
Proof.
  intros Hop Hin Hopen. destruct (in_split p ps Hin) as (ps1 & ps2 & ->).
  destruct (Forall2_app_inv_l ps1 (p :: ps2) Hop)
    as (files1 & files2' & _ & H2 & ->).
  inversion H2 as [|? file' ? files2 Hf Hrest]; subst.
  rewrite Hopen in Hf. injection Hf as <-.
  now exists ps1, ps2, files1, files2.
Qed.

(** X15. When the files are as they were loaded, the index agrees with the
    registry.  Take an aggregator just constructed, and a file system on
    which every loaded file has a well-formed header declaring the names
    its handle lists.  Then [get_index] returns; its weight map sends each
    tensor name to the basename of the path it was loaded from; a name is
    in the weight map exactly when it is in the aggregator; and the weight
    map has [len] entries. *)
Theorem index_agrees_with_registry {rt : Runtime} {st : Safetensors}
  (fs : filesystem) (framework : string) (kv : Options)
  (arg : file_paths_arg) (self : SafetensorsWrapper)
  (headers : list (dict json)) :
  new arg framework kv = Ok self ->
  parsed fs (paths_of arg) headers ->
  Forall well_formed headers ->
  (forall p file,
     In p (paths_of arg) ->
     safe_open p framework kv = Ok file ->
     Permutation (handle_keys file) (names_on_disk fs p)) ->
  exists idx,
    get_index self fs = Ok idx
    /\ (forall p file name,
          In p (paths_of arg) ->
          safe_open p framework kv = Ok file ->
          In name (handle_keys file) ->
          Dict.get (weight_map idx) name = Some (basename p))
    /\ (forall name,
          Dict.contains (weight_map idx) name = __contains__ self name)
    /\ Dict.len (weight_map idx) = __len__ self.
Proof.
  intros Hnew Hp Hwf Hsame.
  destruct (new_inv framework kv arg self Hnew) as (files & Hop & Hnd & ->).
  cbn [_file_paths] in *.
  destruct (index_files_total fs _ _ Dict.empty 0%Z Hp Hwf) as (wm & Hfold).
  assert (E : get_index
                {| _file_paths := paths_of arg;
                   _tensors := registry_of files |} fs
              = Ok {| total_size := JInt (0 + spec_total_size headers);
                      weight_map := wm |})
    by (unfold get_index; cbn [_file_paths]; now rewrite Hfold).
  eexists. split; [exact E|]. cbn [weight_map].
  destruct (index_files_sound fs _ _ _ _ _ Hfold) as (Hwnd & Hwkeys & _).
  specialize (Hwnd (NoDup_nil _)).
  assert (Hiff : forall name,
             In name (Dict.keys wm) <-> In name (all_keys files)).
  { intros name. rewrite Hwkeys. unfold all_keys. rewrite in_flat_map.
    split.
    - intros [[]|(p & Hin & Hn)].
      destruct (opened_file_of_path framework kv _ _ Hop p Hin)
        as (file & Hf & Ho).
      exists file. split; [exact Hf|].
      exact (Permutation_in name (Permutation_sym (Hsame p file Hin Ho)) Hn).
    - intros (file & Hf & Hn).
      destruct (opened_path_of_file framework kv _ _ Hop file Hf)
        as (p & Hin & Ho).
      right. exists p. split; [exact Hin|].
      exact (Permutation_in name (Hsame p file Hin Ho) Hn). }
  split; [|split].
  - intros p file name Hin Ho Hn.
    destruct (opened_split framework kv _ _ p file Hop Hin Ho)
      as (ps1 & ps2 & files1 & files2 & Hps & Hfiles & Hop2).
    rewrite Hps in Hfold.
    apply (index_files_last fs ps1 p ps2 name _ _ _ _ Hfold).
    + exact (Permutation_in name (Hsame p file Hin Ho) Hn).
    + intros q Hq Hnq.
      destruct (opened_file_of_path framework kv _ _ Hop2 q Hq)
        as (fq & Hfq & Hoq).
      assert (Hqin : In q (paths_of arg))
        by (rewrite Hps; apply in_or_app; right; now right).
      pose proof (Permutation_in name
                    (Permutation_sym (Hsame q fq Hqin Hoq)) Hnq) as Hnfq.
      rewrite Hfiles, all_keys_app in Hnd.
      destruct (nodup_app_inv _ _ _ Hnd) as (_ & Hnd2 & _).
      unfold all_keys in Hnd2. simpl in Hnd2.
      destruct (nodup_app_inv _ _ _ Hnd2) as (_ & _ & Hdisj).
      apply (Hdisj name); [|exact Hn].
      apply in_flat_map. now exists fq.
  - intros name. unfold __contains__. cbn [_tensors].
    destruct (Dict.contains wm name) eqn:Ew;
      destruct (Dict.contains (registry_of files) name) eqn:Er;
      try reflexivity; exfalso.
    + apply contains_true_iff, Hiff in Ew. apply contains_false_iff in Er.
      apply Er. now rewrite keys_registry_of.
    + apply contains_true_iff in Er. rewrite keys_registry_of in Er.
      apply contains_false_iff in Ew. now apply Ew, Hiff.
  - unfold __len__. cbn [_tensors]. rewrite len_registry_of.
    unfold Dict.len. rewrite <- (length_map fst wm).
    apply Permutation_length, NoDup_Permutation; assumption.
Qed.

Lemma index_agrees_with_registry_witness :
  exists idx,
    @get_index Files.little Files.package0
      (Files.built
         (PathList ["model/file1.safetensors"; "model/file2.safetensors"]))
      Files.fs0 = Ok idx
    /\ Dict.get (weight_map idx) "b2" = Some "file2.safetensors"
    /\ Dict.len (weight_map idx) = 3.
Proof.
  destruct (@index_agrees_with_registry Files.little Files.package0 Files.fs0
              "pt" tt
              (PathList ["model/file1.safetensors"; "model/file2.safetensors"])
              (Files.built
                 (PathList ["model/file1.safetensors";
                            "model/file2.safetensors"]))
              [[("__metadata__", JDict [("format", JStr "pt")]);
                ("w1", JDict [("dtype", JStr "F32"); ("shape", JList [JInt 1]);
                              ("data_offsets", JList [JInt 0; JInt 4])])];
               [("w2", JDict [("dtype", JStr "F32"); ("shape", JList [JInt 1]);
                              ("data_offsets", JList [JInt 0; JInt 4])]);
                ("b2", JDict [("dtype", JStr "U8"); ("shape", JList [JInt 2]);
                              ("data_offsets", JList [JInt 4; JInt 6])])]])
    as (idx & E & Hget & _ & Hlen).
  - reflexivity.
  - repeat constructor.
  - repeat constructor; discriminate.
  - intros p file [<-|[<-|[]]] Ho; vm_compute in Ho; injection Ho as <-;
      apply Permutation_refl.
  - exists idx. split; [exact E|]. split; [|exact Hlen].
    apply (Hget "model/file2.safetensors"
             (Files.handle_of "model/file2.safetensors" ["w2"; "b2"]) "b2").
    + simpl. tauto.
    + reflexivity.
    + simpl. tauto.
Defined.

(** ** The command line *)

Section CommandLineFacts.

Context {rt : Runtime} {st : Safetensors} {tm : Terminal}.

(** The handler stops at the name [sys]. *)
Lemma broken_pipe_handler_raises (out : Out) :
  broken_pipe_handler out = (Stop (NameError "sys"), out).
Proof. reflexivity. Qed.

Lemma write_raw (w : Out -> bool * Out) (out : Out) :
  raw (fst (write w out)).
Proof.
  unfold write, raw. destruct (w out) as [[|] out']; simpl; auto.
Qed.

Lemma call_bind_raw (A : Type) (r : result A) (k : A -> io unit) :
  (forall a out, raw (fst (k a out))) ->
  forall out, raw (fst (io_bind (call r) k out)).
Proof.
  intros Hk out. unfold io_bind, call. destruct r as [a|e]; simpl.
  - apply Hk.
  - right. left. now exists e.
Qed.

Lemma io_for_raw (X : Type) (xs : list X) (body : X -> io unit) :
  (forall x out, raw (fst (body x out))) ->
  forall out, raw (fst (io_for xs body out)).
Proof.
  intros Hb. induction xs as [|x xs IH]; intros out; simpl.
  - now left.
  - unfold io_bind. specialize (Hb x out).
    destruct (body x out) as [[[]|s] out']; simpl in *; [apply IH | exact Hb].
Qed.

(** A [try] around a body that ends as bodies do ends settled. *)
Lemma except_settles (body : io unit) :
  (forall out, raw (fst (body out))) ->
  forall out, settled (fst (except_broken_pipe body broken_pipe_handler out)).
Proof.
  intros Hb out. unfold except_broken_pipe. specialize (Hb out).
  destruct (body out) as [[[]|s] out']; simpl in *.
  - now left.
  - destruct Hb as [Hb|[(e & Hb)|Hb]]; [discriminate | |].
    + injection Hb as ->. right. left. now exists e.
    + injection Hb as ->. right. right. reflexivity.
Qed.

(** A [try] around what is settled changes nothing. *)
Lemma except_of_settled (body : io unit) (out : Out) :
  settled (fst (body out)) ->
  except_broken_pipe body broken_pipe_handler out = body out.
Proof.
  unfold except_broken_pipe. destruct (body out) as [[[]|s] out']; simpl;
    [reflexivity|].
  intros [H|[(e & H)|H]]; [discriminate | |]; now injection H as ->.
Qed.

Lemma read_metadata_settled (fs : filesystem) (file_path : string) (out : Out) :
  settled (fst (read_metadata fs file_path out)).
Proof.
  apply except_settles, call_bind_raw. intros a o. apply write_raw.
Qed.

Lemma list_tensors_settled (file_paths : list string) (out : Out) :
  settled (fst (list_tensors file_paths out)).
Proof.
  apply except_settles, call_bind_raw. intros w o.
  apply io_for_raw. intros x o'. apply write_raw.
Qed.

Lemma generate_index_settled (fs : filesystem) (file_paths : list string)
  (out : Out) :
  settled (fst (generate_index fs file_paths out)).
Proof.
  apply except_settles, call_bind_raw. intros w o.
  apply call_bind_raw. intros idx o'. apply write_raw.
Qed.

(** The outer [try] of [main] has nothing left to catch for the three
    subcommands. *)
Lemma main_subcommand (fs : filesystem) (args : arguments) (out : Out) :
  main fs args out
  = match args with
    | ArgsMetadata file_path => read_metadata fs file_path out
    | ArgsList file_paths => list_tensors file_paths out
    | ArgsIndex file_paths => generate_index fs file_paths out
    | ArgsNone =>
        except_broken_pipe (write print_help) broken_pipe_handler out
    end.
Proof.
  unfold main. destruct args as [p|ps|ps|]; [| | |reflexivity];
    apply except_of_settled.
  - apply read_metadata_settled.
  - apply list_tensors_settled.
  - apply generate_index_settled.
Qed.

End CommandLineFacts.



(** X18. A command prints nothing when its library part fails: if reading
    the header ([metadata]), building the aggregator ([list], [index]) or
    computing the index ([index]) raises [e], then [main] ends with [e]
    uncaught and the standard output is as it was. *)
Theorem main_prints_nothing_on_failure
  {rt : Runtime} {st : Safetensors} {tm : Terminal}
  (fs : filesystem) (args : arguments) (out : Out) (e : exn) :
  match args with
  | ArgsMetadata file_path => read_safetensors_json fs file_path = Raise e
  | ArgsList file_paths => new (PathList file_paths) "pt" no_kv = Raise e
  | ArgsIndex file_paths =>
      new (PathList file_paths) "pt" no_kv = Raise e
      \/ exists wrapper,
           new (PathList file_paths) "pt" no_kv = Ok wrapper
           /\ get_index wrapper fs = Raise e
  | ArgsNone => False
  end ->
  main fs args out = (Stop (Uncaught e), out)
  /\ exit_status (fst (main fs args out)) = 1%Z.
Proof.
  intros H.
  assert (E : main fs args out = (Stop (Uncaught e), out)).
  { rewrite main_subcommand. destruct args as [p|ps|ps|]; [| | |destruct H].
    - unfold read_metadata, except_broken_pipe, io_bind, call.
      now rewrite H.
    - unfold list_tensors, except_broken_pipe, io_bind, call.
      now rewrite H.
    - unfold generate_index, except_broken_pipe, io_bind, call.
      destruct H as [H|(w & Hw & H)]; [now rewrite H|].
      now rewrite Hw, H. }
  split; [exact E | now rewrite E].
Qed.

Lemma main_prints_nothing_on_failure_witness :
  @main Files.little Files.package0 Console.terminal0 Files.fs0
    (ArgsList ["other/w.safetensors"; "other/w_again.safetensors"])
    (Console.fresh 5)
  = (Stop (Uncaught (ValueError (collision_message "w"))), Console.fresh 5).
Proof.
  apply (@main_prints_nothing_on_failure Files.little Files.package0
           Console.terminal0 Files.fs0
           (ArgsList ["other/w.safetensors"; "other/w_again.safetensors"])
           (Console.fresh 5) (ValueError (collision_message "w"))).
  reflexivity.
Defined.

(** Printing names on a terminal whose reader goes away after [room]
    writes. *)
Lemma console_prints_names {st : Safetensors} (kv0 : Options)
  (names : list string) : forall scr : Console.screen,
  @io_for st (Console.terminal kv0) string names
    (fun name => write (print name)) scr
  = if Nat.leb (List.length names) (Console.room scr)
    then (Done tt,
          {| Console.shown := Console.shown scr ++ map Console.Line names;
             Console.room := Console.room scr - List.length names |})
    else (Stop BrokenPipeError,
          {| Console.shown :=
               Console.shown scr
               ++ map Console.Line (firstn (Console.room scr) names);
             Console.room := 0 |}).
Proof.
  induction names as [|name names IH]; intros [shown room].
  - simpl. now rewrite app_nil_r, Nat.sub_0_r.
  - cbn [io_for]. unfold io_bind at 1. unfold write at 1.
    cbn [print Console.terminal]. unfold Console.put. cbn [Console.room].
    destruct room as [|room].
    + simpl. now rewrite app_nil_r.
    + cbn [Console.shown]. rewrite IH.
      cbn [Console.room Console.shown List.length Nat.leb Nat.sub firstn map].
      rewrite <- !app_assoc. reflexivity.
Qed.

(** X19. The [list] command on a terminal whose reader goes away after
    [room] writes: when the aggregator is built, the names are printed in
    the order of [keys()], one per line; with room for all of them the
    command returns, and otherwise it has printed the first [room] names
    and ends with [NameError] for [sys]. *)
Theorem list_prints_names_until_pipe_breaks
  {rt : Runtime} {st : Safetensors} (kv0 : Options) (fs : filesystem)
  (file_paths : list string) (wrapper : SafetensorsWrapper) (room : nat) :
  new (PathList file_paths) "pt" kv0 = Ok wrapper ->
  @main rt st (Console.terminal kv0) fs (ArgsList file_paths)
    (Console.fresh room)
  = if Nat.leb (__len__ wrapper) room
    then (Done tt,
          {| Console.shown := map Console.Line (keys wrapper);
             Console.room := room - __len__ wrapper |})
    else (Stop (NameError "sys"),
          {| Console.shown := map Console.Line (firstn room (keys wrapper));
             Console.room := 0 |}).
Proof.
  intros Hnew. rewrite main_subcommand.
  unfold list_tensors, except_broken_pipe, io_bind at 1, call.
  cbn [no_kv Console.terminal]. rewrite Hnew.
  rewrite console_prints_names.
  assert (Hlen : __len__ wrapper = List.length (keys wrapper)).
  { unfold __len__, keys, Dict.len, Dict.keys. now rewrite length_map. }
  rewrite Hlen. cbn [Console.fresh Console.room Console.shown app].
  now destruct (Nat.leb (List.length (keys wrapper)) room).
Qed.

Lemma list_prints_names_until_pipe_breaks_witness :
  @main Files.little Files.package0 Console.terminal0 Files.fs0
    (ArgsList ["model/file1.safetensors"; "model/file2.safetensors"])
    (Console.fresh 2)
  = (Stop (NameError "sys"),
     {| Console.shown := [Console.Line "w1"; Console.Line "w2"];
        Console.room := 0 |}).
Proof.
  apply (@list_prints_names_until_pipe_breaks Files.little Files.package0
           (tt : @Options Files.package0) Files.fs0
           ["model/file1.safetensors"; "model/file2.safetensors"]
           (Files.built
              (PathList ["model/file1.safetensors";
                         "model/file2.safetensors"])) 2).
  reflexivity.
Defined.
